(** * financial-data-utils: a shallow embedding of [utils.py], [qtrade.py]
      and [avantage.py], and the properties of the specification checked
      against it.

    Conventions of the embedding.
    - A Python call either returns a value or raises: [result A].
    - Python floats are exact rationals plus [NaN] ([pyfloat]); rounding and
      infinities are not modelled.  A statement about the value of a mean is
      made where binary64 arithmetic is exact, or says which library
      operation, applied to which values, gives it.
    - The network is seen at the level of [session.get]: one entry of [sent]
      per call, one entry of [pending] per response a call returns.
    - Parsed JSON is the inductive type [json]; a JSON object is an
      association list in insertion order, as a Python [dict] iterates.
    - Methods that read or assign attributes of [self], or that talk to the
      network, live in the monad [M S] of state-passing computations in which
      an exception keeps the state reached when it was raised.
    - The specification names its errors abstractly.  The code raises
      built-in exceptions; the correspondence used throughout is
        AuthenticationError   = [ValueError "Invalid client token"],
        NoExactMatchError     = [ValueError "No exact match ..."],
        ResponseShapeError    = the [KeyError] of the failed subscript,
        InsufficientDataError = (no counterpart in the code). *)

From Stdlib Require Import QArith Lqa Ascii String.
From stdpp Require Import base option list strings pretty numbers gmap.

Local Open Scope string_scope.
Local Open Scope Z_scope.

#[local] Set Warnings "-register-all".

(** ** Exceptions and results *)

(** What a subscript [v[k]] was applied to: a string key or an integer. *)
Inductive subscript :=
| SKey (s : string)
| SIdx (z : Z).

Inductive exn :=
| ValueError (msg : string)
| KeyError (k : subscript)
| IndexError
| TypeError
| AttributeError (attr : string)
| JSONDecodeError
| ConnectionError
| DataError.

Inductive result (A : Type) :=
| Ok (a : A)
| Raise (e : exn).
Arguments Ok {A} a.
Arguments Raise {A} e.

Definition rbind {A B} (r : result A) (f : A → result B) : result B :=
  match r with
  | Ok a => f a
  | Raise e => Raise e
  end.

Declare Scope result_scope.
Delimit Scope result_scope with res.
Notation "'let?' x := r 'in' k" := (rbind r (λ x, k))
  (at level 10, x pattern, r at level 100, k at level 200) : result_scope.
Local Open Scope result_scope.

(** [ [f x for x in l] ]: the first exception aborts the comprehension. *)
Fixpoint comprehension {A B} (f : A → result B) (l : list A) : result (list B) :=
  match l with
  | [] => Ok []
  | x :: l' =>
      let? y := f x in
      let? ys := comprehension f l' in
      Ok (y :: ys)
  end.

(** ** Python values *)

Inductive pyfloat :=
| Fin (q : Q)
| NaN.

(** Rich comparison, as [min], [max] and [list.index] use it:
    [py_lt x y] is [x < y] and [py_eq x y] is [x == y]. *)
Class PyOrd (A : Type) := {
  py_lt : A → A → bool;
  py_eq : A → A → bool
}.

Definition py_gt {A} `{PyOrd A} (x y : A) : bool := py_lt y x.
Definition py_le {A} `{PyOrd A} (x y : A) : bool := py_lt x y || py_eq x y.
Definition py_ge {A} `{PyOrd A} (x y : A) : bool := py_le y x.

(** The element types on which [<] is a strict weak order and [==] holds
    exactly between elements that [<] does not separate: integers, and floats
    other than nan. *)
Class PyOrdLaws (A : Type) `{PyOrd A} : Prop := {
  py_lt_irrefl : ∀ x : A, py_lt x x = false;
  py_lt_trans : ∀ x y z : A, py_lt x y = true → py_lt y z = true → py_lt x z = true;
  py_lt_cotrans : ∀ x y z : A,
    py_lt x z = true → py_lt x y = true ∨ py_lt y z = true;
  py_eq_iff : ∀ x y : A,
    py_eq x y = true ↔ py_lt x y = false ∧ py_lt y x = false
}.

#[export] Instance Z_pyord : PyOrd Z := {| py_lt := Z.ltb; py_eq := Z.eqb |}.

#[export] Instance Q_pyord : PyOrd Q :=
  {| py_lt := λ x y, negb (Qle_bool y x); py_eq := Qeq_bool |}.

(** ** Lists: slices, [min], [max], [index] *)

(** [l[:n]].  A bound past the end is clipped; a negative bound counts from
    the end. *)
Definition slice_to {A} (l : list A) (n : Z) : list A :=
  if n <? 0 then take (Z.to_nat (Z.of_nat (length l) + n)) l
  else take (Z.to_nat n) l.

Section builtins.
Context {A : Type} `{PyOrd A}.

(** The loop of [min] and [max]: keep the first item, replace it by a later
    item when [better item kept]. *)
Fixpoint min_max (better : A → A → bool) (kept : A) (l : list A) : A :=
  match l with
  | [] => kept
  | x :: l' => min_max better (if better x kept then x else kept) l'
  end.

Definition py_min (l : list A) : result A :=
  match l with
  | [] => Raise (ValueError "min() arg is an empty sequence")
  | x :: l' => Ok (min_max py_lt x l')
  end.

Definition py_max (l : list A) : result A :=
  match l with
  | [] => Raise (ValueError "max() arg is an empty sequence")
  | x :: l' => Ok (min_max py_gt x l')
  end.

(** [l.index(v)], counting from [i].  Python also stops at an item that is
    the very object [v]; where [==] is reflexive that adds nothing. *)
Fixpoint index_from (i : Z) (v : A) (l : list A) : result Z :=
  match l with
  | [] => Raise (ValueError "list.index(x): x not in list")
  | x :: l' => if py_eq x v then Ok i else index_from (i + 1) v l'
  end.

Definition py_index (l : list A) (v : A) : result Z := index_from 0 v l.

(** *** utils.get_pivots *)
Definition get_pivots (low_list high_list : list A) (n_periods : Z)
  : result ((A * Z) * (A * Z)) :=
  let? tmp_low := py_min (slice_to low_list n_periods) in
  let? tmp_low_days := py_index (slice_to low_list n_periods) tmp_low in
  let? tmp_high := py_max (slice_to high_list n_periods) in
  let? tmp_high_days := py_index (slice_to high_list n_periods) tmp_high in
  Ok ((tmp_low, tmp_low_days), (tmp_high, tmp_high_days)).
End builtins.

(** [np.mean] of a list of floats: nan for the empty list (numpy warns, it
    does not raise), and nan as soon as one element is nan. *)
Fixpoint finite_values (l : list pyfloat) : option (list Q) :=
  match l with
  | [] => Some []
  | Fin q :: l' => cons q <$> finite_values l'
  | NaN :: _ => None
  end.

Definition Qsum (l : list Q) : Q := foldr Qplus 0%Q l.

Definition np_mean (l : list pyfloat) : pyfloat :=
  match finite_values l with
  | Some (q :: qs) =>
      Fin (Qred (Qsum (q :: qs) / inject_Z (Z.of_nat (length (q :: qs)))))
  | _ => NaN
  end.

(** *** utils.get_average_volume *)
Definition get_average_volume (volume_list : list pyfloat) (n_periods : Z)
  : result pyfloat :=
  Ok (np_mean (slice_to volume_list n_periods)).

(** ** Parsed JSON *)

Inductive json :=
| JNull
| JBool (b : bool)
| JInt (z : Z)
| JFloat (x : pyfloat)
| JStr (s : string)
| JList (l : list json)
| JDict (d : list (string * json)).

(** A [dict] as the list of its items, in insertion order. *)
Fixpoint dict_get {V} (d : list (string * V)) (k : string) : option V :=
  match d with
  | [] => None
  | (k', v) :: d' => if decide (k' = k) then Some v else dict_get d' k
  end.

Definition dict_keys {V} (d : list (string * V)) : list string := d.*1.
Definition dict_values {V} (d : list (string * V)) : list V := d.*2.

(** The position a sequence of length [len] reads at index [z]. *)
Definition norm_index (len : nat) (z : Z) : option nat :=
  if decide (0 ≤ z < Z.of_nat len) then Some (Z.to_nat z)
  else if decide (- Z.of_nat len ≤ z < 0) then Some (Z.to_nat (Z.of_nat len + z))
  else None.

(** [v[k]] on a parsed JSON value. *)
Definition py_getitem (v : json) (k : subscript) : result json :=
  match v, k with
  | JDict d, SKey s =>
      match dict_get d s with
      | Some x => Ok x
      | None => Raise (KeyError k)
      end
  | JDict d, SIdx _ => Raise (KeyError k)
  | JList l, SIdx z =>
      match norm_index (length l) z ≫= (l !!.) with
      | Some x => Ok x
      | None => Raise IndexError
      end
  | JStr s, SIdx z =>
      match norm_index (String.length s) z ≫= (λ i, String.get i s) with
      | Some c => Ok (JStr (String c ""))
      | None => Raise IndexError
      end
  | _, _ => Raise TypeError
  end.

(** A value used where the code needs a [str]: in [+] with a string and as
    an argument of [os.path.join]. *)
Definition as_str (v : json) : result string :=
  match v with
  | JStr s => Ok s
  | _ => Raise TypeError
  end.

(** [v == s] for a string [s]. *)
Definition json_eq_str (v : json) (s : string) : bool :=
  match v with
  | JStr s' => bool_decide (s' = s)
  | _ => false
  end.

(** [os.path.join] (posixpath). *)
Definition starts_with_slash (s : string) : bool :=
  match s with
  | String "/"%char _ => true
  | _ => false
  end.

Fixpoint ends_with_slash (s : string) : bool :=
  match s with
  | "" => false
  | String c "" => bool_decide (c = "/"%char)
  | String _ s' => ends_with_slash s'
  end.

Definition path_join2 (path b : string) : string :=
  if starts_with_slash b then b
  else if bool_decide (path = "") || ends_with_slash path then path +:+ b
  else path +:+ "/" +:+ b.

Definition os_path_join (a : string) (p : list string) : string :=
  foldl path_join2 a p.

(** ** State-passing computations that may raise *)

Definition M (S A : Type) : Type := S → result A * S.

#[export] Instance M_ret {S} : MRet (M S) := λ A a s, (Ok a, s).

#[export] Instance M_bind {S} : MBind (M S) := λ A B f m s,
  match m s with
  | (Ok a, s') => f a s'
  | (Raise e, s') => (Raise e, s')
  end.

Definition raise {S A} (e : exn) : M S A := λ s, (Raise e, s).
Definition lift {S A} (r : result A) : M S A := λ s, (r, s).
Definition modify {S} (f : S → S) : M S unit := λ s, (Ok tt, f s).

(** ** The HTTP session *)

Record response := {
  text : string;
  (** what [resp.json()] returns; [None] when the body is not JSON *)
  json_body : option json
}.

Record request := {
  url : string;
  req_headers : gmap string string
}.

(** The network as the code sees it, through its session: the responses the
    calls of [session.get] are still to return, in the order of the calls, and
    the calls made so far, each with its URL and the headers of the session at
    that moment.  What the adapters of the session do on the wire within one
    call (resending on a status 500, 502 or 504 or on a failed connection)
    stays inside the call: [sent] counts calls, not transmissions. *)
Record network := {
  pending : list response;
  sent : list request
}.

Record Retry := {
  total : Z; read : Z; connect : Z;
  backoff_factor : Q;
  status_forcelist : list Z
}.

Record Session := {
  session_headers : gmap string string;
  adapters : list (string * Retry)
}.

(** An object with its session, and the network it talks to. *)
Record world (O : Type) := {
  self : O;
  net : network
}.
Arguments self {O} w.
Arguments net {O} w.

Definition resp_json (r : response) : result json :=
  match json_body r with
  | Some v => Ok v
  | None => Raise JSONDecodeError
  end.

(** What a call of [session.get] asks for: the URL, with the headers of the
    session. *)
Definition request_of (s : Session) (u : string) : request :=
  {| url := u; req_headers := session_headers s |}.

(** [session.get(u)]: the call is recorded and returns the next response
    (or none comes, and [requests] raises [ConnectionError]). *)
Definition session_get {O} (sess : O → Session) (u : string) : M (world O) response :=
  λ w,
    let rq := request_of (sess (self w)) u in
    match pending (net w) with
    | [] => (Raise ConnectionError,
             {| self := self w;
                net := {| pending := []; sent := sent (net w) ++ [rq] |} |})
    | r :: rs => (Ok r,
             {| self := self w;
                net := {| pending := rs; sent := sent (net w) ++ [rq] |} |})
    end.

Definition on_self {O} (f : O → O) : M (world O) unit :=
  modify (λ w, {| self := f (self w); net := net w |}).

Definition the_self {O} : M (world O) O := λ w, (Ok (self w), w).

(** ** qtrade.Questrade *)

Record Questrade := {
  client_token : string;
  session : Session;
  (** [self.headers]: [None] until a token has been stored *)
  headers : option (gmap string string);
  (** [self.accounts]: [JNull] is Python's [None] *)
  accounts : json;
  (** [self.access_token]: [None] while the attribute does not exist *)
  access_token : option json
}.

Definition set_access_token (v : json) (q : Questrade) : Questrade :=
  {| client_token := client_token q; session := session q;
     headers := headers q; accounts := accounts q; access_token := Some v |}.

Definition set_headers (h : gmap string string) (q : Questrade) : Questrade :=
  {| client_token := client_token q; session := session q;
     headers := Some h; accounts := accounts q; access_token := access_token q |}.

Definition set_accounts (v : json) (q : Questrade) : Questrade :=
  {| client_token := client_token q; session := session q;
     headers := headers q; accounts := v; access_token := access_token q |}.

(** [self.session.headers.update(h)] *)
Definition update_session_headers (h : gmap string string) (q : Questrade) : Questrade :=
  {| client_token := client_token q;
     session := {| session_headers := h ∪ session_headers (session q);
                   adapters := adapters (session q) |};
     headers := headers q; accounts := accounts q; access_token := access_token q |}.

(** ** avantage.alphavantage *)

Record alphavantage := {
  api_key : string;
  av_session : Session
}.

Section clients.
(** The headers a fresh [requests.Session] carries. *)
Variable default_headers : gmap string string.
(** [repr] of floats, lists and dicts, which [str] falls back on. *)
Variable py_repr : json → string.

(** *** utils.requests_retry_session *)
Definition requests_retry_session (retries : Z) (backoff : Q) (forcelist : list Z)
  : Session :=
  let retry := {| total := retries; read := retries; connect := retries;
                  backoff_factor := backoff; status_forcelist := forcelist |} in
  {| session_headers := default_headers;
     adapters := [("http://", retry); ("https://", retry)] |}.

Definition py_str (v : json) : string :=
  match v with
  | JNull => "None"
  | JBool true => "True"
  | JBool false => "False"
  | JInt z => pretty z
  | JStr s => s
  | _ => py_repr v
  end.

Definition serv_url : string :=
  "https://login.questrade.com/oauth2/token?grant_type=refresh_token&refresh_token=".

(** [self.access_token] *)
Definition read_access_token : M (world Questrade) json :=
  q ← the_self;
  match access_token q with
  | Some v => mret v
  | None => raise (AttributeError "access_token")
  end.

(** Lines 41-55 of [get_access_token], which are lines 73-87 of
    [refresh_access_token]: from the test of [resp.text] to the return. *)
Definition store_token (resp : response) : M (world Questrade) json :=
  if bool_decide (text resp = "Bad Request") then
    raise (ValueError "Invalid client token")
  else
    parsed ← lift (resp_json resp);
    on_self (set_access_token parsed);;
    tok ← read_access_token;
    token_type ← lift (py_getitem tok (SKey "token_type"));
    token_type ← lift (as_str token_type);
    tok ← read_access_token;
    token ← lift (py_getitem tok (SKey "access_token"));
    token ← lift (as_str token);
    let h : gmap string string :=
      {[ "Authorization" := token_type +:+ " " +:+ token ]} in
    on_self (set_headers h);;
    on_self (update_session_headers h);;
    read_access_token.

Definition get_access_token : M (world Questrade) json :=
  q ← the_self;
  resp ← session_get session (serv_url +:+ client_token q);
  store_token resp.

Definition refresh_access_token : M (world Questrade) json :=
  old_access_token ← read_access_token;
  refresh ← lift (py_getitem old_access_token (SKey "refresh_token"));
  refresh ← lift (as_str refresh);
  resp ← session_get session (serv_url +:+ refresh);
  store_token resp.

(** [os.path.join(self.access_token['api_server'], api_version, endpoint)] *)
Definition api_url (api_version endpoint : string) : M (world Questrade) string :=
  tok ← read_access_token;
  server ← lift (py_getitem tok (SKey "api_server"));
  server ← lift (as_str server);
  mret (os_path_join server [api_version; endpoint]).

Definition get_accounts (api_version : string) : M (world Questrade) json :=
  let acc_endpoint := "accounts" in
  u ← api_url api_version acc_endpoint;
  r ← session_get session u;
  resp ← lift (resp_json r);
  on_self (set_accounts resp);;
  q ← the_self;
  mret (accounts q).

Definition tz_suffix : string := "T00:00:00-05:00".

Definition get_candles (symbol_id start_time end_time time_interval : string)
    (api_version : string) : M (world Questrade) json :=
  let candle_endpoint := "markets/candles" in
  let start_t := start_time +:+ tz_suffix in
  let end_t := end_time +:+ tz_suffix in
  u ← api_url api_version candle_endpoint;
  r ← session_get session
        (u +:+ "/" +:+ symbol_id +:+ "?startTime=" +:+ start_t
           +:+ "&endTime=" +:+ end_t +:+ "&interval=" +:+ time_interval);
  lift (resp_json r).

Definition get_quote (symbol_id : string) (api_version : string)
  : M (world Questrade) json :=
  let quotes_endpoint := "markets/quotes" in
  u ← api_url api_version quotes_endpoint;
  r ← session_get session (u +:+ "/" +:+ symbol_id);
  lift (resp_json r).

Definition no_exact_match : exn :=
  ValueError "No exact match was found for the requested ticker".

(** [resp['symbols'][0][field]] *)
Definition first_symbol (resp : json) (field : string) : result json :=
  let? symbols := py_getitem resp (SKey "symbols") in
  let? first := py_getitem symbols (SIdx 0) in
  py_getitem first (SKey field).

Definition get_symbol_id (ticker : string) (api_version : string)
  : M (world Questrade) string :=
  let symbol_search_endpoint := "symbols/search" in
  u ← api_url api_version symbol_search_endpoint;
  r ← session_get session (u +:+ "?prefix=" +:+ ticker);
  resp ← lift (resp_json r);
  symbol ← lift (first_symbol resp "symbol");
  if json_eq_str symbol ticker then
    symbol_id ← lift (first_symbol resp "symbolId");
    mret (py_str symbol_id)
  else
    raise no_exact_match.

(** The object as the first four lines of [__init__] leave it. *)
Definition new_client (token : string) : Questrade :=
  {| client_token := token;
     session := requests_retry_session 3 (3 # 10) [500; 502; 504];
     headers := None;
     accounts := JNull;
     access_token := None |}.

(** [Questrade(client_token)]: the caller gets the object only when
    [__init__] returns. *)
Definition Questrade_init (token : string) (n : network)
  : result Questrade * network :=
  let '(r, w) := (get_access_token;; get_accounts "v1/")
                   {| self := new_client token; net := n |} in
  (match r with Ok _ => Ok (self w) | Raise e => Raise e end, net w).

(** A call of a public method, with its arguments. *)
Inductive call :=
| Call_get_access_token
| Call_refresh_access_token
| Call_get_accounts (api_version : string)
| Call_get_candles (symbol_id start_time end_time time_interval api_version : string)
| Call_get_quote (symbol_id api_version : string)
| Call_get_symbol_id (ticker api_version : string).

Definition perform (c : call) : M (world Questrade) json :=
  match c with
  | Call_get_access_token => get_access_token
  | Call_refresh_access_token => refresh_access_token
  | Call_get_accounts v => get_accounts v
  | Call_get_candles i s e t v => get_candles i s e t v
  | Call_get_quote i v => get_quote i v
  | Call_get_symbol_id t v => id ← get_symbol_id t v; mret (JStr id)
  end.

(** *** alphavantage.get_sma *)
Definition sma_key : string := "Technical Analysis: SMA".

Definition get_sma (ticker interval time_period series_type : string)
  : M (world alphavantage) json :=
  let serv_url := "https://www.alphavantage.co/query?" in
  let endpoint := "function=SMA" in
  a ← the_self;
  r ← session_get av_session
        (serv_url +:+ endpoint +:+ "&symbol=" +:+ ticker
           +:+ "&interval=" +:+ interval +:+ "&time_period=" +:+ time_period
           +:+ "&series_type=" +:+ series_type +:+ "&apikey=" +:+ api_key a);
  resp ← lift (resp_json r);
  lift (py_getitem resp (SKey sma_key)).
End clients.

(** ** Tables (pandas.DataFrame) *)

Inductive column :=
| FloatCol (xs : list pyfloat)
| ObjCol (xs : list string).

Record DataFrame := {
  index : list Z;
  columns : list (string * column)
}.

(** [d[k] = v] on a dict or on the columns of a table: an existing key keeps
    its place, a new key goes last. *)
Fixpoint dict_set {V} (k : string) (v : V) (d : list (string * V)) : list (string * V) :=
  match d with
  | [] => [(k, v)]
  | (k', v') :: d' =>
      if decide (k' = k) then (k, v) :: d' else (k', v') :: dict_set k v d'
  end.

(** [df[name]] *)
Definition df_getcol (df : DataFrame) (name : string) : result column :=
  match dict_get (columns df) name with
  | Some c => Ok c
  | None => Raise (KeyError (SKey name))
  end.

(** [df[name] = c] *)
Definition df_setcol (name : string) (c : column) (df : DataFrame) : DataFrame :=
  {| index := index df; columns := dict_set name c (columns df) |}.

(** *** Series.rolling(window=w).mean() *)

(** The rows a trailing window of size [w] covers at row [i]: rows
    [max 0 (i - w + 1)] to [i]. *)
Definition window_at (xs : list pyfloat) (w : Z) (i : nat) : list pyfloat :=
  drop (Z.to_nat (Z.of_nat i - w + 1)) (take (S i) xs).

(** The observations of a window: its values other than nan. *)
Fixpoint observations (win : list pyfloat) : list Q :=
  match win with
  | [] => []
  | Fin q :: win' => q :: observations win'
  | NaN :: win' => observations win'
  end.

Definition Qmean (qs : list Q) : Q :=
  Qred (Qsum qs / inject_Z (Z.of_nat (length qs))).

(** The mean of the observations when there are at least [min_periods] of
    them (and at least one), nan otherwise. *)
Definition window_mean (min_periods : Z) (win : list pyfloat) : pyfloat :=
  let obs := observations win in
  if decide (min_periods ≤ Z.of_nat (length obs) ∧ 0 < Z.of_nat (length obs))
  then Fin (Qmean obs) else NaN.

(** The rolling mean of a numeric column; [min_periods] defaults to the size
    of the window. *)
Definition sma_column (w : Z) (xs : list pyfloat) : list pyfloat :=
  imap (λ i _, window_mean w (window_at xs w i)) xs.

Definition rolling_mean (w : Z) (c : column) : result column :=
  if decide (w < 0) then Raise (ValueError "window must be an integer 0 or greater")
  else match c with
       | FloatCol xs => Ok (FloatCol (sma_column w xs))
       | ObjCol _ => Raise DataError
       end.

(** *** utils.get_sma_col *)

(** Tables are objects: a variable holds a reference into the heap. *)
Abbreviation loc := positive.

(** Reading a variable.  Python has no dangling reference; on a location the
    heap does not hold the model raises. *)
Definition heap_read (l : loc) : M (gmap loc DataFrame) DataFrame :=
  λ h, match h !! l with
       | Some df => (Ok df, h)
       | None => (Raise (AttributeError "DataFrame"), h)
       end.

Definition heap_write (l : loc) (df : DataFrame) : M (gmap loc DataFrame) unit :=
  modify (λ h, <[l := df]> h).

Definition heap_alloc (df : DataFrame) : M (gmap loc DataFrame) loc :=
  λ h, let l := fresh (dom h) in (Ok l, <[l := df]> h).

(** [df.copy()]: a new object with the same index and data. *)
Definition df_copy (l : loc) : M (gmap loc DataFrame) loc :=
  df ← heap_read l;
  heap_alloc df.

(** [window: int or list(int)] *)
Inductive window_arg :=
| WInt (w : Z)
| WList (ws : list Z).

Definition sma_name (col_name : string) (i : Z) : string :=
  col_name +:+ "_SMA_" +:+ pretty i.

(** The body of [for i in window], on the rest of the windows. *)
Fixpoint sma_loop (new_df : loc) (col_name : string) (window : list Z)
  : M (gmap loc DataFrame) unit :=
  match window with
  | [] => mret tt
  | i :: rest =>
      cur ← heap_read new_df;
      c ← lift (df_getcol cur col_name);
      sma ← lift (rolling_mean i c);
      cur ← heap_read new_df;
      heap_write new_df (df_setcol (sma_name col_name i) sma cur);;
      sma_loop new_df col_name rest
  end.

(** [if isinstance(window, int): window = [window]] *)
Definition as_window_list (window : window_arg) : list Z :=
  match window with
  | WInt w => [w]
  | WList ws => ws
  end.

Definition get_sma_col (df : loc) (col_name : string) (window : window_arg)
  : M (gmap loc DataFrame) loc :=
  let window := as_window_list window in
  new_df ← df_copy df;
  sma_loop new_df col_name window;;
  mret new_df.

(** *** utils.build_sma_df *)

(** [df[mask]]: the rows where the mask holds, with their index labels. *)
Definition select {A} (mask : list bool) (l : list A) : list A :=
  (filter (λ p, p.1 = true) (zip mask l)).*2.

Definition col_select (mask : list bool) (c : column) : column :=
  match c with
  | FloatCol xs => FloatCol (select mask xs)
  | ObjCol xs => ObjCol (select mask xs)
  end.

Definition df_select (mask : list bool) (df : DataFrame) : DataFrame :=
  {| index := select mask (index df);
     columns := prod_map id (col_select mask) <$> columns df |}.

(** [c != s], element by element. *)
Definition col_ne (c : column) (s : string) : list bool :=
  match c with
  | ObjCol xs => (λ x, negb (bool_decide (x = s))) <$> xs
  | FloatCol xs => (λ _, true) <$> xs
  end.

Section build_sma_df.
(** [float(s)] on a string: [None] when the string is not a number. *)
Variable float_of_string : string → option pyfloat.

Definition py_float (v : json) : result pyfloat :=
  match v with
  | JStr s =>
      match float_of_string s with
      | Some x => Ok x
      | None => Raise (ValueError "could not convert string to float")
      end
  | JInt z => Ok (Fin (inject_Z z))
  | JFloat x => Ok x
  | JBool b => Ok (Fin (if b then 1 else 0))
  | _ => Raise TypeError
  end.

(** [pd.DataFrame(rows, columns=[c1, c2, c3, c4])] on rows of three
    strings and a float. *)
Definition frame_of_rows (rows : list (string * string * string * pyfloat))
    (c1 c2 c3 c4 : string) : DataFrame :=
  {| index := seqZ 0 (Z.of_nat (length rows));
     columns := [(c1, ObjCol ((λ r, r.1.1.1) <$> rows));
                 (c2, ObjCol ((λ r, r.1.1.2) <$> rows));
                 (c3, ObjCol ((λ r, r.1.2) <$> rows));
                 (c4, FloatCol ((λ r, r.2) <$> rows))] |}.

(** [float(tmp['SMA'])] *)
Definition float_of_SMA (tmp : json) : result pyfloat :=
  let? v := py_getitem tmp (SKey "SMA") in
  py_float v.

Definition build_sma_df (sma_dict : list (string * json))
    (sma_days ticker gapping_date : string) : result DataFrame :=
  let dates_list := dict_keys sma_dict in
  let ticker_list := (λ _, ticker) <$> seq 0 (length dates_list) in
  let gapping_date_list := (λ _, gapping_date) <$> seq 0 (length dates_list) in
  let? sma_vals := comprehension float_of_SMA (dict_values sma_dict) in
  let df := frame_of_rows
              (zip (zip (zip ticker_list dates_list) gapping_date_list) sma_vals)
              "ticker" "date" "gapping_date" ("SMA_" +:+ sma_days) in
  let? dates := df_getcol df "date" in
  Ok (df_select (col_ne dates gapping_date) df).
End build_sma_df.

(** ** utils.make_candles_df *)

(** [len(v)] on a parsed JSON value. *)
Definition py_len (v : json) : result nat :=
  match v with
  | JList l => Ok (length l)
  | JDict d => Ok (length d)
  | JStr s => Ok (String.length s)
  | _ => Raise TypeError
  end.

(** The keys of [values_dict], in the order of the literal. *)
Definition candle_keys : list string :=
  ["start"; "end"; "open"; "close"; "low"; "high"; "volume"; "VWAP"].

(** [candles_list[j][i]] *)
Definition candle_value (candles_list : json) (i : string) (j : nat) : result json :=
  let? candle := py_getitem candles_list (SIdx (Z.of_nat j)) in
  py_getitem candle (SKey i).

(** The inner loop, for one key [i]: the list [values_dict[i]] ends up with. *)
Definition candle_column (candles_list : json) (i : string) : result (list json) :=
  let? n := py_len candles_list in
  comprehension (candle_value candles_list i) (seq 0 n).

(** [d[k]] on a dict. *)
Definition dict_item {V} (d : list (string * V)) (k : string) : result V :=
  match dict_get d k with
  | Some v => Ok v
  | None => Raise (KeyError (SKey k))
  end.

Section make_candles_df.
(** The dates and the times of day a table of candles holds. *)
Variables Timestamp Date Time : Type.

(** What a cell of the table of candles holds. *)
Inductive cell :=
| CJson (v : json)
| CDate (d : Date)
| CTime (t : Time).

(** [pd.to_datetime], and the [.date()] and [.time()] of what it returns. *)
Variable to_datetime : cell → result Timestamp.
Variable date_of : Timestamp → Date.
Variable time_of : Timestamp → Time.

(** A table whose columns are lists of Python objects. *)
Record CandleFrame := {
  cf_index : list Z;
  cf_columns : list (string * list cell)
}.

(** [pd.DataFrame(values_dict)] on a dict of lists: the lists must have one
    length, which is the number of rows. *)
Definition frame_of_dict (values_dict : list (string * list cell))
  : result CandleFrame :=
  match values_dict with
  | [] => Ok {| cf_index := []; cf_columns := [] |}
  | (_, c) :: rest =>
      if forallb (λ kc, Nat.eqb (length kc.2) (length c)) rest
      then Ok {| cf_index := seqZ 0 (Z.of_nat (length c)); cf_columns := values_dict |}
      else Raise (ValueError "All arrays must be of the same length")
  end.

Definition make_candles_df (candles_list : json) : result CandleFrame :=
  let? values_dict :=
    comprehension
      (λ i, let? c := candle_column candles_list i in Ok (i, CJson <$> c))
      candle_keys in
  let? ends := dict_item values_dict "end" in
  let? dates :=
    comprehension (λ tmp, let? ts := to_datetime tmp in Ok (CDate (date_of ts)))
                  ends in
  let values_dict := dict_set "date" dates values_dict in
  let? ends := dict_item values_dict "end" in
  let? times :=
    comprehension (λ tmp, let? ts := to_datetime tmp in Ok (CTime (time_of ts)))
                  ends in
  let values_dict := dict_set "time" times values_dict in
  frame_of_dict values_dict.
End make_candles_df.

Arguments CJson {Date Time} v.
Arguments CDate {Date Time} d.
Arguments CTime {Date Time} t.
Arguments cf_index {Date Time} c.
Arguments cf_columns {Date Time} c.
Arguments frame_of_dict {Date Time} values_dict.
Arguments make_candles_df {Timestamp Date Time} to_datetime date_of time_of
  candles_list.

(** ** utils.get_trading_date_range *)

(** A [datetime.date]. *)
Record pydate := {
  year : Z;
  month : Z;
  day : Z
}.

Definition is_leap (y : Z) : bool :=
  (y mod 4 =? 0) && (negb (y mod 100 =? 0) || (y mod 400 =? 0)).

(** [calendar.monthrange(y, m)[1]] *)
Definition days_in_month (y m : Z) : Z :=
  if m =? 2 then (if is_leap y then 29 else 28)
  else if (m =? 4) || (m =? 6) || (m =? 9) || (m =? 11) then 30
  else 31.

(** What the date arithmetic of the function can raise. *)
Inductive date_error :=
| YearOutOfRange   (** [ValueError: year 0 is out of range] *)
| DateOverflow.    (** [OverflowError: date value out of range] *)

(** [d - relativedelta(years=1)]: the same month a year earlier, the day cut
    down to the length of that month. *)
Definition minus_one_year (d : pydate) : date_error + pydate :=
  let y := year d - 1 in
  if y <? 1 then inl YearOutOfRange
  else inr {| year := y; month := month d;
              day := Z.min (days_in_month y (month d)) (day d) |}.

(** [d + relativedelta(days=1)], which is [d + timedelta(days=1)]. *)
Definition plus_one_day (d : pydate) : date_error + pydate :=
  if day d <? days_in_month (year d) (month d)
  then inr {| year := year d; month := month d; day := day d + 1 |}
  else if month d <? 12
  then inr {| year := year d; month := month d + 1; day := 1 |}
  else if year d <? 9999
  then inr {| year := year d + 1; month := 1; day := 1 |}
  else inl DateOverflow.

Definition digit (n : Z) : ascii := ascii_of_nat (48 + Z.to_nat (n mod 10)).

Definition two_digits (n : Z) : string :=
  String (digit (n / 10)) (String (digit n) "").

(** [d.strftime("%Y-%m-%d")].  The year is written with four digits, which
    is what every platform does from the year 1000 on. *)
Definition strftime_Ymd (d : pydate) : string :=
  String (digit (year d / 1000)) (String (digit (year d / 100)) (two_digits (year d)))
    +:+ "-" +:+ two_digits (month d) +:+ "-" +:+ two_digits (day d).

(** The function reads the clock three times; [t1], [t2] and [t3] are what
    the three calls of [date.today()] return. *)
Definition get_trading_date_range (t1 t2 t3 : pydate)
  : date_error + (string * string * string) :=
  match minus_one_year t1 with
  | inl e => inl e
  | inr last_year =>
      let today_last_year := strftime_Ymd last_year in
      let today := strftime_Ymd t2 in
      match plus_one_day t3 with
      | inl e => inl e
      | inr next => inr (today_last_year, today, strftime_Ymd next)
      end
  end.

(** ** Vocabulary of the statements *)

(** [v] is a least element of [l] for Python's [<=]. *)
Definition is_minimum {A} `{PyOrd A} (l : list A) (v : A) : Prop :=
  v ∈ l ∧ ∀ x, x ∈ l → py_le v x = true.

(** [v] is a greatest element of [l] for Python's [>=]. *)
Definition is_maximum {A} `{PyOrd A} (l : list A) (v : A) : Prop :=
  v ∈ l ∧ ∀ x, x ∈ l → py_ge v x = true.

(** [i] is the first position of [l] that holds a value equal ([==]) to [v]. *)
Definition first_occurrence {A} `{PyOrd A} (l : list A) (v : A) (i : nat) : Prop :=
  (∃ x, l !! i = Some x ∧ py_eq x v = true) ∧
  ∀ j y, (j < i)%nat → l !! j = Some y → py_eq y v = false.

(** The client holds a token object, and both [self.headers] and the headers
    of its session carry the [Authorization] made from it. *)
Definition authenticated (q : Questrade) : Prop :=
  ∃ tok token_type token,
    access_token q = Some tok ∧ tok ≠ JNull ∧
    py_getitem tok (SKey "token_type") = Ok (JStr token_type) ∧
    py_getitem tok (SKey "access_token") = Ok (JStr token) ∧
    headers q = Some {[ "Authorization" := token_type +:+ " " +:+ token ]} ∧
    session_headers (session q) !! "Authorization"
      = Some (token_type +:+ " " +:+ token).

(** A JSON value the token fields can be read from: subscripting it with
    [token_type] and with [access_token] gives strings. *)
Definition token_object (v : json) : Prop :=
  ∃ token_type token,
    py_getitem v (SKey "token_type") = Ok (JStr token_type) ∧
    py_getitem v (SKey "access_token") = Ok (JStr token).

(** The two methods that exchange a token. *)
Definition token_exchange (c : call) : Prop :=
  c = Call_get_access_token ∨ c = Call_refresh_access_token.





(** The URL of an SMA query, in one piece. *)
Definition sma_url (ticker interval time_period series_type key : string) : string :=
  "https://www.alphavantage.co/query?function=SMA&symbol=" +:+ ticker
    +:+ "&interval=" +:+ interval +:+ "&time_period=" +:+ time_period
    +:+ "&series_type=" +:+ series_type +:+ "&apikey=" +:+ key.

(** ** Sample data, for the examples *)

Definition sample_token : json :=
  JDict [("access_token", JStr "C3lTUKuNQrAAmSD");
         ("token_type", JStr "Bearer");
         ("expires_in", JInt 300);
         ("refresh_token", JStr "aSBe7wAAdx88QTbwut0tiu3SYic3ox8F");
         ("api_server", JStr "https://api01.iq.questrade.com/")].

Definition sample_client : Questrade :=
  {| client_token := "token";
     session := {| session_headers := {[ "Authorization" := "Bearer C3lTUKuNQrAAmSD" ]};
                   adapters := [] |};
     headers := Some {[ "Authorization" := "Bearer C3lTUKuNQrAAmSD" ]};
     accounts := JDict [("accounts", JList [])];
     access_token := Some sample_token |}.

Definition bad_request : response :=
  {| text := "Bad Request"; json_body := None |}.

Definition json_response (body : string) (v : json) : response :=
  {| text := body; json_body := Some v |}.

Definition search_AAP_then_AAPL : json :=
  JDict [("symbols",
          JList [JDict [("symbol", JStr "AAP"); ("symbolId", JInt 6280)];
                 JDict [("symbol", JStr "AAPL"); ("symbolId", JInt 8049)]])].

Definition search_AAPL : json :=
  JDict [("symbols",
          JList [JDict [("symbol", JStr "AAPL"); ("symbolId", JInt 8049)];
                 JDict [("symbol", JStr "AAPL.TO"); ("symbolId", JInt 9001)]])].

Definition sample_av : alphavantage :=
  {| api_key := "demo"; av_session := {| session_headers := ∅; adapters := [] |} |}.

Definition error_payload : json :=
  JDict [("Error Message", JStr "Invalid API call.")].

Definition sma_payload : json :=
  JDict [("Meta Data", JDict [("1: Symbol", JStr "AAPL")]);
         ("Technical Analysis: SMA",
          JDict [("2020-01-02", JDict [("SMA", JStr "2.0")]);
                 ("2020-01-01", JDict [("SMA", JStr "1.0")])])].

Definition null_response : response := json_response "null" JNull.

Definition accounts_response : response :=
  json_response "" (JDict [("accounts", JList [])]).

Definition three_responses : network :=
  {| pending := [json_response "" sample_token; accounts_response; null_response];
     sent := [] |}.

Definition float_of_two_literals (s : string) : option pyfloat :=
  if decide (s = "1.0") then Some (Fin 1)
  else if decide (s = "2.0") then Some (Fin 2)
  else None.

Definition close_table : DataFrame :=
  {| index := [0; 1; 2; 3];
     columns := [("close", FloatCol [Fin 10; Fin 20; Fin 30; Fin 40])] |}.

Definition table_with_sma : DataFrame :=
  {| index := [0; 1; 2];
     columns := [("close", FloatCol [Fin 1; Fin 2; Fin 3]);
                 ("close_SMA_2", FloatCol [Fin 0; Fin 0; Fin 0])] |}.

(** ** Vocabulary of the further properties *)

(** The table [get_sma_col] builds from [t] when the column [col_name] holds
    the numbers [xs]: one assignment per window, in order. *)
Definition with_sma_columns (col_name : string) (xs : list pyfloat)
    (window : list Z) (t : DataFrame) : DataFrame :=
  foldl (λ t w, df_setcol (sma_name col_name w) (FloatCol (sma_column w xs)) t)
        t window.

(** What a method does through its session: at most one call of
    [session.get], made with the headers the session had when the method was
    called, and at most one response taken, never without such a call. *)
Definition one_exchange (w w' : world Questrade) : Prop :=
  ∃ new taken,
    sent (net w') = (sent (net w) ++ new)%list ∧
    pending (net w) = (taken ++ pending (net w'))%list ∧
    (length taken ≤ length new ≤ 1)%nat ∧
    ∀ rq, rq ∈ new → req_headers rq = session_headers (session (self w)).


(** Two candles, as the brokerage returns them, and a reading of their
    timestamps that cuts the string at the [T]. *)
Definition sample_candles : list json :=
  [JDict [("start", JStr "2020-03-24T09:30:00"); ("end", JStr "2020-03-24T09:31:00");
          ("low", JInt 10); ("high", JInt 12); ("open", JInt 11); ("close", JInt 12);
          ("volume", JInt 500); ("VWAP", JInt 11)];
   JDict [("start", JStr "2020-03-24T09:31:00"); ("end", JStr "2020-03-24T09:32:00");
          ("low", JInt 11); ("high", JInt 13); ("open", JInt 12); ("close", JInt 11);
          ("volume", JInt 300); ("VWAP", JInt 12); ("extra", JNull)]].

Definition sample_to_datetime (c : cell string string) : result string :=
  match c with
  | CJson (JStr s) => Ok s
  | _ => Raise TypeError
  end.

Definition sample_value (j : nat) (k : string) : json :=
  match sample_candles !! j with
  | Some c => match py_getitem c (SKey k) with Ok v => v | Raise _ => JNull end
  | None => JNull
  end.

Definition sample_stamp (j : nat) : string :=
  match sample_value j "end" with
  | JStr s => s
  | _ => ""
  end.

Definition candles_without_open : list json :=
  [JDict [("start", JStr "2020-03-24T09:30:00"); ("end", JStr "2020-03-24T09:31:00");
          ("open", JInt 11)];
   JDict [("start", JStr "2020-03-24T09:31:00"); ("end", JStr "2020-03-24T09:32:00");
          ("close", JInt 11)]].

(** A date of the calendar. *)
Definition valid_date (d : pydate) : Prop :=
  1 ≤ year d ≤ 9999 ∧ 1 ≤ month d ≤ 12 ∧
  1 ≤ day d ≤ days_in_month (year d) (month d).

(** The days of the year before month [m]. *)
Definition days_before_month (y m : Z) : Z :=
  (if 1 <? m then 31 else 0) + (if 2 <? m then days_in_month y 2 else 0) +
  (if 3 <? m then 31 else 0) + (if 4 <? m then 30 else 0) +
  (if 5 <? m then 31 else 0) + (if 6 <? m then 30 else 0) +
  (if 7 <? m then 31 else 0) + (if 8 <? m then 31 else 0) +
  (if 9 <? m then 30 else 0) + (if 10 <? m then 31 else 0) +
  (if 11 <? m then 30 else 0).

(** [d.toordinal()]: the number of the day, counting from 0001-01-01 as 1. *)
Definition toordinal (d : pydate) : Z :=
  let y := year d - 1 in
  365 * y + y / 4 - y / 100 + y / 400 + days_before_month (year d) (month d) + day d.

Definition digit_value (c : ascii) : option Z :=
  let n := Z.of_nat (nat_of_ascii c) in
  if decide (48 ≤ n ≤ 57) then Some (n - 48) else None.

(** Reading a string of the form [yyyy-mm-dd] back. *)
Definition parse_Ymd (s : string) : option pydate :=
  match s with
  | String y1 (String y2 (String y3 (String y4 (String "-"
      (String m1 (String m2 (String "-" (String d1 (String d2 ""))))))))) =>
      y1 ← digit_value y1; y2 ← digit_value y2; y3 ← digit_value y3;
      y4 ← digit_value y4; m1 ← digit_value m1; m2 ← digit_value m2;
      d1 ← digit_value d1; d2 ← digit_value d2;
      Some {| year := 1000 * y1 + 100 * y2 + 10 * y3 + y4;
              month := 10 * m1 + m2; day := 10 * d1 + d2 |}
  | _ => None
  end.

(** * Properties *)

(** Unfolds the monad so that a method applied to a world computes. *)
Ltac run_method :=
  cbv [mbind M_bind mret M_ret lift raise the_self on_self modify session_get
       read_access_token api_url].

(** ** Comparison laws of the element types *)

#[export] Instance Z_pyord_laws : PyOrdLaws Z.
Proof.
  split; unfold py_lt, py_eq; simpl.
  - apply Z.ltb_irrefl.
  - intros x y z. rewrite !Z.ltb_lt. lia.
  - intros x y z. rewrite !Z.ltb_lt. lia.
  - intros x y. rewrite Z.eqb_eq, !Z.ltb_ge. lia.
Qed.

#[export] Instance Q_pyord_laws : PyOrdLaws Q.
Proof.
  assert (Hlt : ∀ x y : Q, negb (Qle_bool y x) = true ↔ (x < y)%Q).
  { intros x y. rewrite negb_true_iff, <- not_true_iff_false, Qle_bool_iff.
    split; [apply Qnot_le_lt | apply Qlt_not_le]. }
  assert (Hge : ∀ x y : Q, negb (Qle_bool y x) = false ↔ (y <= x)%Q).
  { intros x y. rewrite negb_false_iff. apply Qle_bool_iff. }
  split; unfold py_lt, py_eq; simpl.
  - intros x. apply Hge, Qle_refl.
  - intros x y z. rewrite !Hlt. apply Qlt_trans.
  - intros x y z. rewrite !Hlt. intros Hxz.
    destruct (Qlt_le_dec x y) as [|Hyx]; [by left | right].
    eapply Qle_lt_trans; eauto.
  - intros x y. rewrite Qeq_bool_iff, !Hge. split.
    + intros E. split; rewrite E; apply Qle_refl.
    + intros [? ?]. by apply Qle_antisym.
Qed.

(** ** Slices *)

Lemma slice_to_nonneg {A} (l : list A) (n : Z) :
  0 ≤ n → slice_to l n = take (Z.to_nat n) l.
Proof. intros Hn. unfold slice_to. destruct (Z.ltb_spec n 0); [lia | done]. Qed.

Lemma slice_to_all {A} (l : list A) (n : Z) :
  Z.of_nat (length l) ≤ n → slice_to l n = l.
Proof.
  intros Hn. rewrite slice_to_nonneg by lia. apply take_ge. lia.
Qed.

(** ** [min], [max] and [index] *)

Section min_max_facts.
Context {A : Type} (better : A → A → bool).

Lemma min_max_elem (k : A) (l : list A) : min_max better k l ∈ k :: l.
Proof.
  revert k. induction l as [|y l IH]; intros k; simpl; [by left|].
  destruct (better y k).
  - right. apply IH.
  - apply elem_of_cons. destruct (elem_of_cons l (min_max better k l) k) as [[->|?] _];
      [apply IH | by left | right; by right].
Qed.

Hypothesis better_irrefl : ∀ x, better x x = false.
Hypothesis better_trans :
  ∀ x y z, better x y = true → better y z = true → better x z = true.
Hypothesis better_cotrans :
  ∀ x y z, better x z = true → better x y = true ∨ better y z = true.

Lemma min_max_unbeaten (k : A) (l : list A) (x : A) :
  x ∈ k :: l → better x (min_max better k l) = false.
Proof.
  revert k x. induction l as [|y l IH]; intros k x Hx; simpl.
  { apply list_elem_of_singleton in Hx as ->. apply better_irrefl. }
  destruct (better y k) eqn:Hyk.
  - apply elem_of_cons in Hx as [-> | Hx]; [|by apply IH].
    destruct (better k (min_max better y l)) eqn:Hk; [|done].
    pose proof (better_trans _ _ _ Hyk Hk) as Hy.
    rewrite IH in Hy; [done | by left].
  - apply elem_of_cons in Hx as [-> | Hx]; [apply IH; by left|].
    apply elem_of_cons in Hx as [-> | Hx]; [|apply IH; by right].
    destruct (better y (min_max better k l)) eqn:Hy; [|done].
    apply (better_cotrans _ k) in Hy as [Hy | Hy]; [congruence|].
    rewrite IH in Hy; [done | by left].
Qed.
End min_max_facts.

Section pivot_facts.
Context {A : Type} `{PyOrdLaws A}.

Lemma py_eq_refl (x : A) : py_eq x x = true.
Proof. apply py_eq_iff. split; apply py_lt_irrefl. Qed.

Lemma py_min_spec (l : list A) :
  l ≠ [] → ∃ v, py_min l = Ok v ∧ is_minimum l v.
Proof.
  destruct l as [|k l]; [done | intros _]. eexists. split; [done|].
  split; [apply min_max_elem|]. intros x Hx. unfold py_le.
  pose proof (min_max_unbeaten py_lt py_lt_irrefl py_lt_trans py_lt_cotrans
                k l x Hx) as Hle.
  destruct (py_lt (min_max py_lt k l) x) eqn:Hlt; [done|]. simpl.
  by apply py_eq_iff.
Qed.

Lemma py_max_spec (l : list A) :
  l ≠ [] → ∃ v, py_max l = Ok v ∧ is_maximum l v.
Proof.
  destruct l as [|k l]; [done | intros _]. eexists. split; [done|].
  split; [apply min_max_elem|]. intros x Hx. unfold py_ge, py_le.
  assert (py_gt x (min_max py_gt k l) = false) as Hle.
  { apply min_max_unbeaten; [| | |done]; unfold py_gt.
    - apply py_lt_irrefl.
    - intros a b c ? ?. by apply (py_lt_trans c b a).
    - intros a b c Hac. destruct (py_lt_cotrans c b a Hac); eauto. }
  unfold py_gt in Hle.
  destruct (py_lt x (min_max py_gt k l)) eqn:Hlt; [done|]. simpl.
  by apply py_eq_iff.
Qed.

Lemma index_from_spec (i : Z) (v : A) (l : list A) :
  v ∈ l →
  ∃ k : nat, index_from i v l = Ok (i + Z.of_nat k) ∧ first_occurrence l v k.
Proof.
  revert i. induction l as [|x l IH]; intros i Hv; [by apply elem_of_nil in Hv|].
  simpl.
  destruct (py_eq x v) eqn:Hx.
  - exists 0%nat. split; [f_equal; lia|]. split; [eauto|]. intros; lia.
  - apply elem_of_cons in Hv as [-> | Hv]; [by rewrite py_eq_refl in Hx|].
    destruct (IH (i + 1) Hv) as (k & -> & (y & Hk & Hy) & Hfirst).
    exists (S k). split; [f_equal; lia|]. split; [eauto|].
    intros [|j] z Hj Hz; simplify_eq/=; [done|].
    apply (Hfirst j); [lia | done].
Qed.

(** What [get_pivots] returns on slices that are not empty. *)
Lemma get_pivots_spec (low high : list A) (n : Z) :
  slice_to low n ≠ [] → slice_to high n ≠ [] →
  ∃ v_low i_low v_high i_high,
    get_pivots low high n
      = Ok ((v_low, Z.of_nat i_low), (v_high, Z.of_nat i_high)) ∧
    is_minimum (slice_to low n) v_low ∧
    first_occurrence (slice_to low n) v_low i_low ∧
    is_maximum (slice_to high n) v_high ∧
    first_occurrence (slice_to high n) v_high i_high.
Proof.
  intros Hlow Hhigh. unfold get_pivots, py_index.
  destruct (py_min_spec _ Hlow) as (vl & -> & Hmin). cbn [rbind].
  destruct (index_from_spec 0 vl _ (proj1 Hmin)) as (il & -> & Hil). cbn [rbind].
  destruct (py_max_spec _ Hhigh) as (vh & -> & Hmax). cbn [rbind].
  destruct (index_from_spec 0 vh _ (proj1 Hmax)) as (ih & -> & Hih). cbn [rbind].
  exists vl, il, vh, ih. by rewrite !Z.add_0_l.
Qed.
End pivot_facts.

Example get_pivots_example :
  get_pivots [3; 1; 2; 0] [4; 9; 9; 11] 3 = Ok ((1, 1), (9, 1)).
Proof. reflexivity. Qed.

Example get_average_volume_example :
  get_average_volume [Fin 10; Fin 20; Fin 30; Fin 7] 3 = Ok (Fin 20).
Proof. reflexivity. Qed.

(** C2. For lists of at least [n] elements, with [1 <= n],
    [get_pivots low_list high_list n] returns
    [((v_low, i_low), (v_high, i_high))] where [v_low] is the minimum of the
    first [n] elements of [low_list], [v_high] the maximum of the first [n]
    elements of [high_list], and each index is the 0-based position of the
    first occurrence of that extremum among those [n] elements. *)
Theorem get_pivots_first_extrema {A} `{PyOrdLaws A}
    (low_list high_list : list A) (n : Z) :
  1 ≤ n → n ≤ Z.of_nat (length low_list) → n ≤ Z.of_nat (length high_list) →
  ∃ v_low i_low v_high i_high,
    get_pivots low_list high_list n
      = Ok ((v_low, Z.of_nat i_low), (v_high, Z.of_nat i_high)) ∧
    is_minimum (take (Z.to_nat n) low_list) v_low ∧
    first_occurrence (take (Z.to_nat n) low_list) v_low i_low ∧
    is_maximum (take (Z.to_nat n) high_list) v_high ∧
    first_occurrence (take (Z.to_nat n) high_list) v_high i_high.
Proof.
  intros Hn Hlow Hhigh.
  rewrite <- !(slice_to_nonneg _ n) by lia.
  apply get_pivots_spec; rewrite slice_to_nonneg by lia;
    intros E; apply (f_equal length) in E; rewrite length_take in E;
    simpl in E; lia.
Qed.

Lemma get_pivots_first_extrema_witness :
  ∃ v_low i_low v_high i_high,
    get_pivots [3; 1; 2; 0] [4; 9; 9; 11] 3
      = Ok ((v_low, Z.of_nat i_low), (v_high, Z.of_nat i_high)) ∧
    is_minimum (take (Z.to_nat 3) [3; 1; 2; 0]) v_low ∧
    first_occurrence (take (Z.to_nat 3) [3; 1; 2; 0]) v_low i_low ∧
    is_maximum (take (Z.to_nat 3) [4; 9; 9; 11]) v_high ∧
    first_occurrence (take (Z.to_nat 3) [4; 9; 9; 11]) v_high i_high.
Proof. apply (get_pivots_first_extrema (A := Z)); simpl; lia. Defined.

(** C1, as stated, fails: with [n = 5] on lists of three elements neither
    function raises; both answer from the three elements there are. *)
Lemma short_lists_do_not_raise :
  Z.of_nat (length [3; 1; 2]) < 5 ∧
  get_pivots [3; 1; 2] [4; 9; 5] 5 = Ok ((1, 1), (9, 1)) ∧
  get_average_volume [Fin 1; Fin 2; Fin 3] 5 = Ok (Fin 2).
Proof. split; [simpl; lia | split; reflexivity]. Qed.

(** C1, amended.  For [n] greater than the length of the lists the slice
    [l[:n]] is the whole list, silently: [get_average_volume] returns the
    mean of all the elements (nan when there is none), and [get_pivots]
    returns the minimum of the whole low list and the maximum of the whole
    high list with the positions of their first occurrences.  [get_pivots]
    raises only on an empty list, and then the [ValueError] of [min] or [max];
    nothing in the code checks [n] against the length. *)
Theorem slice_past_the_end_truncates {A} `{PyOrdLaws A}
    (low_list high_list : list A) (volume_list : list pyfloat) (n : Z) :
  Z.of_nat (length low_list) < n →
  Z.of_nat (length high_list) < n →
  Z.of_nat (length volume_list) < n →
  get_average_volume volume_list n = Ok (np_mean volume_list) ∧
  (low_list ≠ [] → high_list ≠ [] →
     ∃ v_low i_low v_high i_high,
       get_pivots low_list high_list n
         = Ok ((v_low, Z.of_nat i_low), (v_high, Z.of_nat i_high)) ∧
       is_minimum low_list v_low ∧ first_occurrence low_list v_low i_low ∧
       is_maximum high_list v_high ∧ first_occurrence high_list v_high i_high) ∧
  (low_list = [] →
     get_pivots low_list high_list n
       = Raise (ValueError "min() arg is an empty sequence")) ∧
  (low_list ≠ [] → high_list = [] →
     get_pivots low_list high_list n
       = Raise (ValueError "max() arg is an empty sequence")).
Proof.
  intros Hlow Hhigh Hvol.
  pose proof (slice_to_all low_list n) as El.
  pose proof (slice_to_all high_list n) as Eh.
  split; [|split; [|split]].
  - unfold get_average_volume. by rewrite slice_to_all by lia.
  - intros Nl Nh.
    destruct (get_pivots_spec low_list high_list n) as (vl & il & vh & ih & Hres);
      [by rewrite El by lia | by rewrite Eh by lia |].
    rewrite El, Eh in Hres by lia. by exists vl, il, vh, ih.
  - intros ->. unfold get_pivots. by rewrite El by lia.
  - intros Nl ->. unfold get_pivots, py_index. rewrite El, Eh by lia.
    destruct (py_min_spec _ Nl) as (vl & -> & Hmin). cbn [rbind].
    by destruct (index_from_spec 0 vl _ (proj1 Hmin)) as (il & -> & _).
Qed.

Lemma slice_past_the_end_truncates_witness :
  get_average_volume [Fin 1; Fin 2; Fin 3] 5 = Ok (np_mean [Fin 1; Fin 2; Fin 3]) ∧
  ([3; 1; 2] ≠ [] → [4; 9; 5] ≠ [] →
     ∃ v_low i_low v_high i_high,
       get_pivots [3; 1; 2] [4; 9; 5] 5
         = Ok ((v_low, Z.of_nat i_low), (v_high, Z.of_nat i_high)) ∧
       is_minimum [3; 1; 2] v_low ∧ first_occurrence [3; 1; 2] v_low i_low ∧
       is_maximum [4; 9; 5] v_high ∧ first_occurrence [4; 9; 5] v_high i_high) ∧
  ([3; 1; 2] = [] →
     get_pivots [3; 1; 2] [4; 9; 5] 5
       = Raise (ValueError "min() arg is an empty sequence")) ∧
  ([3; 1; 2] ≠ [] → [4; 9; 5] = [] →
     get_pivots [3; 1; 2] [4; 9; 5] 5
       = Raise (ValueError "max() arg is an empty sequence")).
Proof.
  apply (slice_past_the_end_truncates (A := Z) [3; 1; 2] [4; 9; 5]
           [Fin 1; Fin 2; Fin 3] 5); simpl; lia.
Defined.

(** ** Strings *)

Lemma string_app_assoc (a b c : string) : (a +:+ b) +:+ c = a +:+ (b +:+ c).
Proof.
  induction a as [|x a IH]; [done|].
  unfold String.append; fold String.append. simpl. by rewrite IH.
Qed.

Lemma string_app_length (a b : string) :
  String.length (a +:+ b) = (String.length a + String.length b)%nat.
Proof.
  induction a as [|x a IH]; [done|].
  unfold String.append; fold String.append. simpl. by rewrite IH.
Qed.

(** ** Running the methods *)

Lemma bool_decide_text (r : response) (s : string) :
  text r = s → bool_decide (text r = s) = true.
Proof. intros. by apply bool_decide_eq_true. Qed.

(** C4. When the body of the server's response is the literal "Bad Request",
    [get_access_token] and [refresh_access_token] raise
    [ValueError "Invalid client token"] (the specification's
    AuthenticationError), whether or not the body parses as JSON: the test on
    the text comes first.  The object is left as it was, so neither the stored
    access token nor the session headers are replaced. *)
Theorem bad_request_raises_invalid_token (q : Questrade) (r : response)
    (rest : list response) (log : list request) :
  text r = "Bad Request" →
  let w := {| self := q; net := {| pending := r :: rest; sent := log |} |} in
  get_access_token w
    = (Raise (ValueError "Invalid client token"),
       {| self := q;
          net := {| pending := rest;
                    sent := log ++ [request_of (session q)
                                      (serv_url +:+ client_token q)] |} |}) ∧
  ∀ tok refresh,
    access_token q = Some tok →
    py_getitem tok (SKey "refresh_token") = Ok (JStr refresh) →
    refresh_access_token w
      = (Raise (ValueError "Invalid client token"),
         {| self := q;
            net := {| pending := rest;
                      sent := log ++ [request_of (session q)
                                        (serv_url +:+ refresh)] |} |}).
Proof.
  intros Htext w. split.
  - unfold get_access_token, store_token. run_method. simpl.
    by rewrite bool_decide_text.
  - intros tok refresh Htok Hrefresh.
    unfold refresh_access_token, store_token. run_method. simpl.
    rewrite Htok, Hrefresh. simpl. by rewrite bool_decide_text.
Qed.

Lemma bad_request_raises_invalid_token_witness :
  (get_access_token
     {| self := sample_client; net := {| pending := [bad_request]; sent := [] |} |}).1
    = Raise (ValueError "Invalid client token") ∧
  (refresh_access_token
     {| self := sample_client; net := {| pending := [bad_request]; sent := [] |} |}).1
    = Raise (ValueError "Invalid client token").
Proof.
  pose proof (bad_request_raises_invalid_token sample_client bad_request [] []
                eq_refl) as [Hget Hrefresh].
  split.
  - exact (f_equal fst Hget).
  - exact (f_equal fst (Hrefresh sample_token _ eq_refl eq_refl)).
Defined.

(** C3. When the first result of the search has a symbol other than the
    ticker, [get_symbol_id] raises [ValueError "No exact match ..."] (the
    specification's NoExactMatchError) whatever the later results are; when
    it is the ticker, the method returns [str] of that result's [symbolId]. *)
Theorem get_symbol_id_first_result_only (py_repr : json → string)
    (q : Questrade) (tok : json) (server : string)
    (r : response) (rest : list response) (log : list request)
    (resp symbol : json) (ticker api_version : string) :
  access_token q = Some tok →
  py_getitem tok (SKey "api_server") = Ok (JStr server) →
  json_body r = Some resp →
  first_symbol resp "symbol" = Ok symbol →
  let w := {| self := q; net := {| pending := r :: rest; sent := log |} |} in
  let outcome := (get_symbol_id py_repr ticker api_version w).1 in
  (symbol ≠ JStr ticker → outcome = Raise no_exact_match) ∧
  (symbol = JStr ticker →
     ∀ symbol_id, first_symbol resp "symbolId" = Ok symbol_id →
       outcome = Ok (py_str py_repr symbol_id) ∧
       ∀ z, symbol_id = JInt z → outcome = Ok (pretty z)).
Proof.
  intros Htok Hserver Hbody Hsymbol w outcome.
  assert (outcome =
            if json_eq_str symbol ticker
            then rbind (first_symbol resp "symbolId") (λ v, Ok (py_str py_repr v))
            else Raise no_exact_match) as ->.
  { unfold outcome, get_symbol_id, resp_json. run_method. simpl.
    rewrite Htok, Hserver. simpl. rewrite Hbody, Hsymbol.
    destruct (json_eq_str symbol ticker); [|done].
    by destruct (first_symbol resp "symbolId"). }
  split.
  - intros Hne. destruct symbol; try done. simpl.
    rewrite bool_decide_eq_false_2; [done | congruence].
  - intros -> sid Hsid. simpl. rewrite bool_decide_eq_true_2 by done.
    rewrite Hsid. split; [done | by intros z ->].
Qed.

Lemma get_symbol_id_first_result_only_witness :
  (get_symbol_id (λ _, "") "AAPL" "v1/"
     {| self := sample_client;
        net := {| pending := [json_response "" search_AAP_then_AAPL]; sent := [] |} |}).1
    = Raise no_exact_match ∧
  (get_symbol_id (λ _, "") "AAPL" "v1/"
     {| self := sample_client;
        net := {| pending := [json_response "" search_AAPL]; sent := [] |} |}).1
    = Ok "8049".
Proof.
  split.
  - apply (get_symbol_id_first_result_only (λ _, "") sample_client sample_token
             _ (json_response "" search_AAP_then_AAPL) [] []
             search_AAP_then_AAPL (JStr "AAP") "AAPL" "v1/"
             eq_refl eq_refl eq_refl eq_refl).
    discriminate.
  - destruct (get_symbol_id_first_result_only (λ _, "") sample_client sample_token
                _ (json_response "" search_AAPL) [] []
                search_AAPL (JStr "AAPL") "AAPL" "v1/"
                eq_refl eq_refl eq_refl eq_refl) as [_ Hmatch].
    destruct (Hmatch eq_refl (JInt 8049) eq_refl) as [_ Hint].
    exact (Hint 8049 eq_refl).
Defined.

(** C8. On a response whose JSON object lacks the key
    "Technical Analysis: SMA", [get_sma] raises the [KeyError] of that key
    (the specification's ResponseShapeError); when the key is there it returns
    the value under it; and it returns a value in no other case, so a
    payload of the wrong shape is never turned into an empty result. *)
Theorem get_sma_surfaces_missing_key (a : alphavantage) (r : response)
    (rest : list response) (log : list request) (payload : json)
    (ticker interval time_period series_type : string) :
  json_body r = Some payload →
  let w := {| self := a; net := {| pending := r :: rest; sent := log |} |} in
  let outcome := (get_sma ticker interval time_period series_type w).1 in
  (∀ d, payload = JDict d → dict_get d sma_key = None →
     outcome = Raise (KeyError (SKey sma_key))) ∧
  (∀ d v, payload = JDict d → dict_get d sma_key = Some v → outcome = Ok v) ∧
  (∀ v, outcome = Ok v → ∃ d, payload = JDict d ∧ dict_get d sma_key = Some v) ∧
  sent (get_sma ticker interval time_period series_type w).2.(net)
    = (log ++ [request_of (av_session a)
                 (sma_url ticker interval time_period series_type (api_key a))])%list.
Proof.
  intros Hbody w outcome.
  assert (outcome = py_getitem payload (SKey sma_key)) as ->.
  { unfold outcome, get_sma, resp_json. run_method. simpl. by rewrite Hbody. }
  repeat split.
  - intros d -> Hd. simpl. by rewrite Hd.
  - intros d v -> Hd. simpl. by rewrite Hd.
  - intros v Hv. destruct payload; try done. simpl in Hv.
    destruct (dict_get d sma_key) eqn:Hd; [|done]. simplify_eq. eauto.
  - unfold get_sma, resp_json. run_method. simpl. rewrite Hbody. simpl.
    by destruct (py_getitem payload (SKey sma_key)).
Qed.

Lemma get_sma_surfaces_missing_key_witness :
  (get_sma "AAPL" "daily" "20" "close"
     {| self := sample_av;
        net := {| pending := [json_response "" error_payload]; sent := [] |} |}).1
    = Raise (KeyError (SKey "Technical Analysis: SMA")).
Proof.
  destruct (get_sma_surfaces_missing_key sample_av
              (json_response "" error_payload) [] [] error_payload
              "AAPL" "daily" "20" "close" eq_refl) as [Hmissing _].
  exact (Hmissing _ eq_refl eq_refl).
Defined.

Example get_sma_example :
  (get_sma "AAPL" "daily" "20" "close"
     {| self := sample_av;
        net := {| pending := [json_response "" sma_payload]; sent := [] |} |}).1
    = Ok (JDict [("2020-01-02", JDict [("SMA", JStr "2.0")]);
                 ("2020-01-01", JDict [("SMA", JStr "1.0")])]).
Proof. reflexivity. Qed.

(** C9. [get_candles] asks for the candles with
    [startTime = start_time + 'T00:00:00-05:00'] and
    [endTime = end_time + 'T00:00:00-05:00']: the suffix is a constant of the
    method, the same for every date and every other argument. *)
Theorem get_candles_fixed_offset (q : Questrade) (tok : json) (server : string)
    (responses : list response) (log : list request)
    (symbol_id start_time end_time time_interval api_version : string) :
  access_token q = Some tok →
  py_getitem tok (SKey "api_server") = Ok (JStr server) →
  let w := {| self := q; net := {| pending := responses; sent := log |} |} in
  let w' := (get_candles symbol_id start_time end_time time_interval api_version w).2 in
  sent (net w')
    = (log ++ [request_of (session q)
                 (os_path_join server [api_version; "markets/candles"]
                    +:+ "/" +:+ symbol_id
                    +:+ "?startTime=" +:+ start_time +:+ "T00:00:00-05:00"
                    +:+ "&endTime=" +:+ end_time +:+ "T00:00:00-05:00"
                    +:+ "&interval=" +:+ time_interval)])%list ∧
  self w' = q.
Proof.
  intros Htok Hserver w w'. unfold w', get_candles, resp_json, tz_suffix.
  run_method. simpl. rewrite Htok, Hserver. simpl.
  rewrite !string_app_assoc.
  destruct responses as [|r rest]; [done|].
  by destruct (json_body r).
Qed.

Lemma get_candles_fixed_offset_witness :
  sent (net (get_candles "8049" "2020-03-24" "2020-03-25" "OneDay" "v1/"
               {| self := sample_client;
                  net := {| pending := []; sent := [] |} |}).2)
    = [request_of (session sample_client)
         "https://api01.iq.questrade.com/v1/markets/candles/8049?startTime=2020-03-24T00:00:00-05:00&endTime=2020-03-25T00:00:00-05:00&interval=OneDay"].
Proof.
  exact (proj1 (get_candles_fixed_offset sample_client sample_token _ [] []
                  "8049" "2020-03-24" "2020-03-25" "OneDay" "v1/"
                  eq_refl eq_refl)).
Defined.

(** ** The authenticated state *)

Lemma as_str_ok (v : json) (s : string) : as_str v = Ok s → v = JStr s.
Proof. destruct v; simpl; congruence. Qed.

Lemma store_token_ok (r : response) (w w' : world Questrade) (v : json) :
  store_token r w = (Ok v, w') →
  authenticated (self w') ∧ access_token (self w') = Some v ∧
  text r ≠ "Bad Request" ∧ json_body r = Some v ∧
  net w' = net w ∧ accounts (self w') = accounts (self w) ∧
  client_token (self w') = client_token (self w).
Proof.
  unfold store_token, resp_json. destruct (bool_decide_reflect (text r = "Bad Request"));
    run_method; [done|].
  destruct (json_body r) as [tok|]; simpl; [|done].
  destruct (py_getitem tok (SKey "token_type")) as [tt|] eqn:Htt; simpl; [|done].
  destruct (as_str tt) as [token_type|] eqn:Ett; simpl; [|done].
  destruct (py_getitem tok (SKey "access_token")) as [at'|] eqn:Hat; simpl; [|done].
  destruct (as_str at') as [token|] eqn:Eat; simpl; [|done].
  apply as_str_ok in Ett as ->. apply as_str_ok in Eat as ->.
  intros [= <- <-]. simpl. repeat split; try done.
  exists tok, token_type, token. repeat split; try done.
  - by intros ->.
  - apply lookup_union_Some_l, lookup_singleton_eq.
Qed.

Lemma session_get_inv {O} (sess : O → Session) (u : string)
    (w w' : world O) (res : result response) :
  session_get sess u w = (res, w') →
  self w' = self w ∧
  sent (net w') = (sent (net w) ++ [request_of (sess (self w)) u])%list ∧
  match res with
  | Ok r => pending (net w) = r :: pending (net w')
  | Raise e => e = ConnectionError ∧ pending (net w) = []
  end.
Proof.
  unfold session_get. destruct (pending (net w)) eqn:E; intros [= <- <-]; eauto.
Qed.

Lemma api_url_inv (v e : string) (w w' : world Questrade) (res : result string) :
  api_url v e w = (res, w') → w' = w.
Proof.
  unfold api_url. run_method.
  destruct (access_token (self w)) as [tok|]; simpl; [|congruence].
  destruct (py_getitem tok (SKey "api_server")) as [srv|]; simpl; [|congruence].
  destruct (as_str srv); simpl; congruence.
Qed.

(** The methods that only read: whatever they return or raise, the object is
    the one they were called on. *)
Lemma fetch_keeps_self {B} (v e : string) (suffix : string)
    (k : json → result B) (w w' : world Questrade) (res : result B) :
  (u ← api_url v e;
   r ← session_get session (u +:+ suffix);
   resp ← lift (resp_json r);
   lift (k resp)) w = (res, w') →
  self w' = self w.
Proof.
  cbv [mbind M_bind lift].
  destruct (api_url v e w) as [[u|] w1] eqn:E1; apply api_url_inv in E1 as ->;
    [|by intros [= _ <-]].
  destruct (session_get session (u +:+ suffix) w) as [[r|] w2] eqn:E2;
    apply session_get_inv in E2 as (<- & _); [|by intros [= _ <-]].
  destruct (resp_json r); by intros [= _ <-].
Qed.

Lemma get_candles_keeps_self (i s e t v : string) (w w' : world Questrade) res :
  get_candles i s e t v w = (res, w') → self w' = self w.
Proof.
  intros Hrun.
  apply (fetch_keeps_self v "markets/candles"
           ("/" +:+ i +:+ "?startTime=" +:+ (s +:+ tz_suffix) +:+ "&endTime=" +:+
            (e +:+ tz_suffix) +:+ "&interval=" +:+ t) Ok w w' res).
  rewrite <- Hrun. unfold get_candles. cbv [mbind M_bind lift].
  destruct (api_url v "markets/candles" w) as [[u|] w1]; [|done].
  destruct (session_get _ _ w1) as [[r|] w2]; [|done].
  by destruct (resp_json r).
Qed.

Lemma get_quote_keeps_self (i v : string) (w w' : world Questrade) res :
  get_quote i v w = (res, w') → self w' = self w.
Proof.
  intros Hrun.
  apply (fetch_keeps_self v "markets/quotes" ("/" +:+ i) Ok w w' res).
  rewrite <- Hrun. unfold get_quote. cbv [mbind M_bind lift].
  destruct (api_url v "markets/quotes" w) as [[u|] w1]; [|done].
  destruct (session_get _ _ w1) as [[r|] w2]; [|done].
  by destruct (resp_json r).
Qed.

Lemma get_symbol_id_keeps_self (py_repr : json → string) (t v : string)
    (w w' : world Questrade) res :
  get_symbol_id py_repr t v w = (res, w') → self w' = self w.
Proof.
  unfold get_symbol_id. cbv [mbind M_bind mret M_ret lift raise].
  destruct (api_url v "symbols/search" w) as [[u|] w1] eqn:E1;
    apply api_url_inv in E1 as ->; [|by intros [= _ <-]].
  destruct (session_get session _ w) as [[r|] w2] eqn:E2;
    apply session_get_inv in E2 as (<- & _); [|by intros [= _ <-]].
  destruct (resp_json r) as [resp|]; [|by intros [= _ <-]].
  destruct (first_symbol resp "symbol") as [sym|]; [|by intros [= _ <-]].
  destruct (json_eq_str sym t); [|by intros [= _ <-]].
  destruct (first_symbol resp "symbolId"); by intros [= _ <-].
Qed.

Lemma get_accounts_inv (v : string) (w w' : world Questrade) (res : result json) :
  get_accounts v w = (res, w') →
  match res with
  | Ok a =>
      self w' = set_accounts a (self w) ∧
      ∃ r, pending (net w) = r :: pending (net w') ∧ json_body r = Some a
  | Raise _ => self w' = self w
  end.
Proof.
  unfold get_accounts. cbv [mbind M_bind mret M_ret lift the_self on_self modify].
  destruct (api_url v "accounts" w) as [[u|] w1] eqn:E1;
    apply api_url_inv in E1 as ->; [|by intros [= <- <-]].
  destruct (session_get session u w) as [[r|] w2] eqn:E2;
    apply session_get_inv in E2 as (Hself & _ & Hpending); [|by intros [= <- <-]].
  unfold resp_json. destruct (json_body r) as [a|] eqn:Hbody; simpl;
    intros [= <- <-]; simpl; [|done].
  rewrite Hself. eauto.
Qed.

Lemma authenticated_set_accounts (a : json) (q : Questrade) :
  authenticated q → authenticated (set_accounts a q).
Proof. intros (tok & tt & t & ?). by exists tok, tt, t. Qed.

Lemma get_access_token_inv (w w' : world Questrade) (res : result json) :
  get_access_token w = (res, w') →
  match res with
  | Ok v =>
      authenticated (self w') ∧ access_token (self w') = Some v ∧
      accounts (self w') = accounts (self w) ∧
      client_token (self w') = client_token (self w) ∧
      ∃ r, pending (net w) = r :: pending (net w') ∧ json_body r = Some v
  | Raise _ => True
  end.
Proof.
  unfold get_access_token. cbv [mbind M_bind the_self].
  destruct (session_get session _ w) as [[r|] w1] eqn:E1;
    apply session_get_inv in E1 as (Hself & _ & Hpending); [|by intros [= <- <-]].
  destruct res as [v|]; [|done]. intros Hstore.
  apply store_token_ok in Hstore as (? & ? & ? & ? & Hnet & ? & ?).
  rewrite <- Hself. repeat split; try done. exists r. by rewrite Hnet.
Qed.

Lemma refresh_access_token_ok (w w' : world Questrade) (v : json) :
  refresh_access_token w = (Ok v, w') →
  authenticated (self w') ∧ accounts (self w') = accounts (self w).
Proof.
  unfold refresh_access_token. cbv [mbind M_bind lift read_access_token the_self].
  destruct (access_token (self w)) as [tok|]; cbv [mret M_ret raise]; [|done].
  destruct (py_getitem tok (SKey "refresh_token")) as [rt|]; [|done].
  destruct (as_str rt) as [refresh|]; [|done].
  destruct (session_get session _ w) as [[r|] w1] eqn:E1;
    apply session_get_inv in E1 as (Hself & _); [|done].
  intros Hstore. apply store_token_ok in Hstore as (? & ? & ? & ? & ? & ? & ?).
  by rewrite <- Hself.
Qed.

(** C10, as stated, fails: the state is reached by construction, yet it is
    not an invariant.  A client is constructed; a later [get_access_token]
    receives the JSON body [null]; it stores the parsed body before it reads
    the token fields, raises [TypeError], and leaves [self.access_token] equal
    to [None] on an object the caller still holds. *)
Lemma failed_call_leaves_no_token :
  ∃ q n' w',
    Questrade_init ∅ "token" three_responses = (Ok q, n') ∧
    authenticated q ∧
    get_access_token {| self := q; net := n' |} = (Raise TypeError, w') ∧
    access_token (self w') = Some JNull ∧
    ¬ authenticated (self w').
Proof.
  eexists _, _, _. split; [reflexivity|]. split; [|split; [reflexivity|]].
  - exists sample_token, "Bearer", "C3lTUKuNQrAAmSD". by repeat split.
  - split; [reflexivity|].
    intros (tok & ? & ? & Htok & Hnull & _). simpl in Htok. congruence.
Qed.

Lemma as_str_raise (v : json) (e : exn) :
  as_str v = Raise e → ∀ s, v ≠ JStr s.
Proof. destruct v; simpl; congruence. Qed.

(** What [store_token] leaves when it raises: the object as it was, or, when
    the body parsed and is not a token object, the object with that body as
    its [access_token] and nothing else changed. *)
Lemma store_token_raise (r : response) (w w' : world Questrade) (e : exn) :
  store_token r w = (Raise e, w') →
  net w' = net w ∧
  (self w' = self w ∨
   ∃ v, text r ≠ "Bad Request" ∧ json_body r = Some v ∧ ¬ token_object v ∧
        self w' = set_access_token v (self w)).
Proof.
  unfold store_token, resp_json. destruct (bool_decide_reflect (text r = "Bad Request"));
    run_method; [intros [= _ <-]; eauto|].
  destruct (json_body r) as [tok|]; simpl; [|intros [= _ <-]; eauto].
  destruct (py_getitem tok (SKey "token_type")) as [tt|] eqn:Htt; simpl.
  2:{ intros [= _ <-]. split; [done|]. right. exists tok. repeat split; try done.
      intros (? & ? & ? & _). congruence. }
  destruct (as_str tt) as [token_type|] eqn:Ett; simpl.
  2:{ intros [= _ <-]. split; [done|]. right. exists tok. repeat split; try done.
      intros (s & ? & Hs & _). rewrite Htt in Hs. injection Hs as ->.
      by eapply as_str_raise. }
  destruct (py_getitem tok (SKey "access_token")) as [at'|] eqn:Hat; simpl.
  2:{ intros [= _ <-]. split; [done|]. right. exists tok. repeat split; try done.
      intros (? & ? & _ & ?). congruence. }
  destruct (as_str at') as [token|] eqn:Eat; simpl; [done|].
  intros [= _ <-]. split; [done|]. right. exists tok. repeat split; try done.
  intros (? & s & _ & Hs). rewrite Hat in Hs. injection Hs as ->.
  by eapply as_str_raise.
Qed.

Lemma not_token_object_not_authenticated (v : json) (q : Questrade) :
  ¬ token_object v → ¬ authenticated (set_access_token v q).
Proof.
  intros Hv (tok & tt & t & Htok & _ & Htt & Hat & _). simpl in Htok.
  injection Htok as <-. apply Hv. by exists tt, t.
Qed.

(** A token exchange that raises: the client is as it was, or the call took
    a response that is not [Bad Request], whose body parsed and is not a token
    object, and left that body as [self.access_token]. *)
Lemma token_exchange_raise (w w' : world Questrade) (e : exn) :
  get_access_token w = (Raise e, w') ∨ refresh_access_token w = (Raise e, w') →
  self w' = self w ∨
  ∃ r v, pending (net w) = r :: pending (net w') ∧
         text r ≠ "Bad Request" ∧ json_body r = Some v ∧ ¬ token_object v ∧
         self w' = set_access_token v (self w).
Proof.
  assert (∀ u, (resp ← session_get session u; store_token resp) w = (Raise e, w') →
               self w' = self w ∨
               ∃ r v, pending (net w) = r :: pending (net w') ∧
                      text r ≠ "Bad Request" ∧ json_body r = Some v ∧
                      ¬ token_object v ∧ self w' = set_access_token v (self w))
    as Hcall.
  { intros u. cbv [mbind M_bind].
    destruct (session_get session u w) as [[r|] w1] eqn:E1;
      apply session_get_inv in E1 as (Hself & _ & Hpending);
      [|intros [= _ <-]; by left].
    intros Hstore. apply store_token_raise in Hstore as [Hnet [Hsame|Hbody]].
    - left. congruence.
    - right. destruct Hbody as (v & ? & ? & ? & ?). exists r, v.
      rewrite Hnet, <- Hself. by repeat split. }
  intros [Hrun|Hrun].
  - apply (Hcall (serv_url +:+ client_token (self w))). exact Hrun.
  - revert Hrun. unfold refresh_access_token.
    cbv [mbind M_bind lift read_access_token the_self].
    destruct (access_token (self w)) as [tok|]; cbv [mret M_ret raise];
      [|intros [= _ <-]; by left].
    destruct (py_getitem tok (SKey "refresh_token")) as [rt|];
      [|intros [= _ <-]; by left].
    destruct (as_str rt) as [refresh|]; [|intros [= _ <-]; by left].
    apply (Hcall (serv_url +:+ refresh)).
Qed.

(** C10, amended.  A client the constructor returns is authenticated: it
    holds the token object of the token response, [self.headers] and the
    session headers carry [Authorization: token_type access_token], and
    [self.accounts] is the body of the accounts response.  The constructor
    raises what [get_access_token] raises, so no object exists without a
    successful token exchange.  Afterwards every call of a public method,
    whether it returns or raises, keeps the client authenticated, with one
    exception: a token exchange that is answered by a response other than
    [Bad Request] whose body is JSON and not a token object raises, and leaves
    the client with that body as [self.access_token], no longer
    authenticated.  Only a [get_accounts] that returns replaces the cached
    accounts. *)
Theorem constructed_client_is_authenticated (default_headers : gmap string string)
    (py_repr : json → string) (token : string) (n : network) :
  (∀ q n', Questrade_init default_headers token n = (Ok q, n') →
     authenticated q ∧ client_token q = token ∧
     ∃ r_token r_accounts tok,
       pending n = r_token :: r_accounts :: pending n' ∧
       json_body r_token = Some tok ∧ access_token q = Some tok ∧
       json_body r_accounts = Some (accounts q)) ∧
  (∀ e w', get_access_token {| self := new_client default_headers token; net := n |}
             = (Raise e, w') →
     Questrade_init default_headers token n = (Raise e, net w')) ∧
  (∀ q c ns res w',
     authenticated q →
     perform py_repr c {| self := q; net := ns |} = (res, w') →
     (authenticated (self w') ∨
      token_exchange c ∧
      ∃ e r v,
        res = Raise e ∧ pending ns = r :: pending (net w') ∧
        text r ≠ "Bad Request" ∧ json_body r = Some v ∧ ¬ token_object v ∧
        self w' = set_access_token v q ∧ ¬ authenticated (self w')) ∧
     (accounts (self w') = accounts q ∨
      ∃ api_version v,
        c = Call_get_accounts api_version ∧ res = Ok v ∧ accounts (self w') = v)).
Proof.
  split; [|split].
  - intros q n'. unfold Questrade_init. cbv [mbind M_bind].
    destruct (get_access_token _) as [[tok|] w1] eqn:E1; [|done].
    apply get_access_token_inv in E1 as (Hauth & Htok & _ & Hct & r1 & Hp1 & Hb1).
    destruct (get_accounts "v1/" w1) as [[a|] w2] eqn:E2; [|done].
    apply get_accounts_inv in E2 as (Hself & r2 & Hp2 & Hb2).
    intros [= <- <-]. rewrite Hself. simpl in *.
    split; [by apply authenticated_set_accounts|]. split; [done|].
    exists r1, r2, tok. by rewrite Hp1, Hp2.
  - intros e w' Hrun. unfold Questrade_init. cbv [mbind M_bind]. by rewrite Hrun.
  - intros q c ns res w' Hauth Hrun.
    assert (∀ e, get_access_token {| self := q; net := ns |} = (Raise e, w') ∨
                 refresh_access_token {| self := q; net := ns |} = (Raise e, w') →
                 token_exchange c → res = Raise e →
                 (authenticated (self w') ∨
                  token_exchange c ∧
                  ∃ e r v,
                    res = Raise e ∧ pending ns = r :: pending (net w') ∧
                    text r ≠ "Bad Request" ∧ json_body r = Some v ∧
                    ¬ token_object v ∧
                    self w' = set_access_token v q ∧ ¬ authenticated (self w')) ∧
                 (accounts (self w') = accounts q ∨
                  ∃ api_version v,
                    c = Call_get_accounts api_version ∧ res = Ok v ∧
                    accounts (self w') = v)) as Hraise.
    { intros e Hfail Hc ->.
      apply token_exchange_raise in Hfail as [Hsame|(r & v & Hp & Ht & Hb & Hv & Hself)];
        simpl in *.
      - rewrite Hsame. eauto.
      - rewrite Hself. split; [|by left]. right. split; [done|].
        exists e, r, v. repeat split; try done.
        by apply not_token_object_not_authenticated. }
    destruct c; simpl in Hrun.
    + destruct res as [v|e].
      * apply get_access_token_inv in Hrun as (? & _ & ? & _). eauto.
      * apply (Hraise e); [by left | by left | done].
    + destruct res as [v|e].
      * apply refresh_access_token_ok in Hrun as (? & ?). eauto.
      * apply (Hraise e); [by right | by right | done].
    + apply get_accounts_inv in Hrun. destruct res as [a|e].
      * destruct Hrun as (-> & _). simpl.
        split; [left; by apply authenticated_set_accounts|].
        right. by exists api_version, a.
      * rewrite Hrun. eauto.
    + apply get_candles_keeps_self in Hrun as ->. eauto.
    + apply get_quote_keeps_self in Hrun as ->. eauto.
    + revert Hrun. cbv [mbind M_bind mret M_ret].
      destruct (get_symbol_id _ _ _ _) as [[s|] w1] eqn:E;
        apply get_symbol_id_keeps_self in E; intros [= _ <-]; rewrite E; eauto.
Qed.

Lemma constructed_client_is_authenticated_witness :
  ∃ q, (Questrade_init ∅ "token" three_responses).1 = Ok q ∧ authenticated q.
Proof.
  destruct (constructed_client_is_authenticated ∅ (λ _, "") "token" three_responses)
    as [Hinit _].
  eexists. split; [reflexivity|].
  exact (proj1 (Hinit _ _ eq_refl)).
Defined.

(** ** Tables of moving averages *)

Lemma comprehension_ok {A B} (f : A → result B) (l : list A) (ys : list B) :
  comprehension f l = Ok ys ↔ Forall2 (λ x y, f x = Ok y) l ys.
Proof.
  revert ys. induction l as [|x l IH]; intros ys; simpl.
  - split; [intros [= <-]; constructor | by inversion 1].
  - split.
    + destruct (f x) as [y|] eqn:Hx; simpl; [|done].
      destruct (comprehension f l) as [ys'|] eqn:Hl; simpl; [|done].
      intros [= <-]. constructor; [done | by apply IH].
    + inversion 1 as [|? y ? ys' Hx Hl]; subst.
      rewrite Hx. simpl. apply IH in Hl. by rewrite Hl.
Qed.

Lemma select_fmap {A B} (g : A → bool) (f : A → B) (l : list A) :
  select (g <$> l) (f <$> l) = f <$> filter (λ x, g x = true) l.
Proof.
  unfold select. induction l as [|x l IH]; [done|].
  rewrite !fmap_cons. cbn [zip zip_with]. rewrite !filter_cons. cbn [fst].
  destruct (decide (g x = true)); rewrite ?fmap_cons; cbn [snd]; by rewrite IH.
Qed.

Lemma const_fmap_seq {A} (a : A) (i n : nat) :
  (λ _, a) <$> seq i n = replicate n a.
Proof. revert i. induction n as [|n IH]; intros i; simpl; [done | by rewrite IH]. Qed.

Lemma zip_rows (ticker gapping_date : string) (dates : list string)
    (vals : list pyfloat) :
  length dates = length vals →
  zip (zip (zip (replicate (length dates) ticker) dates)
         (replicate (length dates) gapping_date)) vals
    = (λ e, (ticker, e.1, gapping_date, e.2)) <$> zip dates vals.
Proof.
  revert vals. induction dates as [|d dates IH]; intros [|v vals] Hlen;
    simplify_eq/=; [done|]. by rewrite IH.
Qed.

Lemma select_length {A B} (g : A → bool) (l : list A) (k : list B) :
  length k = length l →
  length (select (g <$> l) k) = length (filter (λ x, g x = true) l).
Proof.
  unfold select. revert k. induction l as [|x l IH]; intros [|y k] Hlen;
    simplify_eq/=; [done|].
  rewrite !filter_cons. cbn [fst].
  destruct (decide (g x = true)); simpl; by rewrite IH.
Qed.

Lemma select_rows {B} (ticker gapping_date : string)
    (entries : list (string * pyfloat))
    (f : string * string * string * pyfloat → B) :
  let rows := (λ e, (ticker, e.1, gapping_date, e.2)) <$> entries in
  select ((λ x, negb (bool_decide (x = gapping_date))) <$> ((λ r, r.1.1.2) <$> rows))
         (f <$> rows)
    = (λ e, f (ticker, e.1, gapping_date, e.2))
        <$> filter (λ e, e.1 ≠ gapping_date) entries.
Proof.
  intros rows. unfold rows. rewrite <- !list_fmap_compose.
  rewrite select_fmap. f_equal. apply list_filter_iff. intros e. simpl.
  rewrite negb_true_iff, bool_decide_eq_false. done.
Qed.

Lemma kept_length {V} (R : string * V → pyfloat → Prop) (gapping_date : string)
    (sma_dict : list (string * V)) (vals : list pyfloat) :
  Forall2 R sma_dict vals →
  length (filter (λ e, e.1 ≠ gapping_date) (zip (dict_keys sma_dict) vals))
    = length (filter (λ entry, entry.1 ≠ gapping_date) sma_dict).
Proof.
  induction 1 as [|[d v] x sma_dict vals _ _ IH]; [done|].
  cbn [dict_keys fmap list_fmap zip zip_with fst]. rewrite !filter_cons. cbn [fst].
  fold (dict_keys sma_dict). fold (zip (dict_keys sma_dict) vals).
  destruct (decide (d ≠ gapping_date)); simpl; by rewrite IH.
Qed.

(** C5. [build_sma_df] has one row for each entry of the mapping whose date
    is not the gapping date, in the order of the mapping, and no row for the
    gapping date; on the mapping
    [{'2020-01-01': {'SMA': '1.0'}, '2020-01-02': {'SMA': '2.0'}}] with
    gapping date ['2020-01-02'] the table has exactly one row, that of
    ['2020-01-01']. *)
Theorem build_sma_df_drops_gapping_date (float_of_string : string → option pyfloat)
    (sma_days ticker gapping_date : string) :
  (∀ (sma_dict : list (string * json)) (vals : list pyfloat),
     Forall2 (λ entry x, float_of_SMA float_of_string entry.2 = Ok x) sma_dict vals →
     let kept := filter (λ e, e.1 ≠ gapping_date) (zip (dict_keys sma_dict) vals) in
     ∃ df,
       build_sma_df float_of_string sma_dict sma_days ticker gapping_date = Ok df ∧
       columns df = [("ticker", ObjCol ((λ _, ticker) <$> kept));
                     ("date", ObjCol (kept.*1));
                     ("gapping_date", ObjCol ((λ _, gapping_date) <$> kept));
                     ("SMA_" +:+ sma_days, FloatCol (kept.*2))] ∧
       length (index df) = length kept ∧
       length kept = length (filter (λ entry, entry.1 ≠ gapping_date) sma_dict) ∧
       gapping_date ∉ kept.*1) ∧
  (∀ v1 v2,
     float_of_string "1.0" = Some v1 → float_of_string "2.0" = Some v2 →
     build_sma_df float_of_string
       [("2020-01-01", JDict [("SMA", JStr "1.0")]);
        ("2020-01-02", JDict [("SMA", JStr "2.0")])]
       sma_days ticker "2020-01-02"
     = Ok {| index := [0];
             columns := [("ticker", ObjCol [ticker]);
                         ("date", ObjCol ["2020-01-01"]);
                         ("gapping_date", ObjCol ["2020-01-02"]);
                         ("SMA_" +:+ sma_days, FloatCol [v1])] |}).
Proof.
  split.
  - intros sma_dict vals Hvals kept.
    assert (length (dict_keys sma_dict) = length vals) as Hlen.
    { unfold dict_keys. rewrite length_fmap. by eapply Forall2_length. }
    assert (comprehension (float_of_SMA float_of_string) (dict_values sma_dict)
            = Ok vals) as Hcomp.
    { apply comprehension_ok. unfold dict_values. by apply Forall2_fmap_l. }
    unfold build_sma_df. rewrite Hcomp. cbn [rbind].
    rewrite !const_fmap_seq, zip_rows by done.
    eexists. split; [reflexivity|]. cbn [columns index df_select col_ne fmap list_fmap
      prod_map col_select frame_of_rows fst snd id].
    rewrite !(select_rows ticker gapping_date). cbn [fst snd].
    split; [done|]. split; [|split].
    + rewrite <- !list_fmap_compose, select_length.
      * f_equal. apply list_filter_iff. intros e. simpl.
        by rewrite negb_true_iff, bool_decide_eq_false.
      * rewrite length_seqZ, !length_fmap. lia.
    + eapply kept_length, Hvals.
    + intros (e & -> & He)%list_elem_of_fmap.
      by apply list_elem_of_filter in He as [? _].
  - intros v1 v2 H1 H2. unfold build_sma_df, float_of_SMA. simpl.
    by rewrite H1, H2.
Qed.

Lemma build_sma_df_drops_gapping_date_witness :
  build_sma_df float_of_two_literals
    [("2020-01-01", JDict [("SMA", JStr "1.0")]);
     ("2020-01-02", JDict [("SMA", JStr "2.0")])]
    "20" "AAPL" "2020-01-02"
  = Ok {| index := [0];
          columns := [("ticker", ObjCol ["AAPL"]);
                      ("date", ObjCol ["2020-01-01"]);
                      ("gapping_date", ObjCol ["2020-01-02"]);
                      ("SMA_20", FloatCol [Fin 1])] |}.
Proof.
  exact (proj2 (build_sma_df_drops_gapping_date float_of_two_literals
                  "20" "AAPL" "2020-01-02")
           (Fin 1) (Fin 2) eq_refl eq_refl).
Defined.

(** ** Rolling means *)

Lemma finite_values_observations (l : list pyfloat) (qs : list Q) :
  finite_values l = Some qs → observations l = qs ∧ length qs = length l.
Proof.
  revert qs. induction l as [|[q|] l IH]; intros qs; simpl; [by intros [= <-]| |done].
  destruct (finite_values l) as [qs'|]; simpl; [|done].
  intros [= <-]. destruct (IH qs' eq_refl) as [E Hlen].
  simpl. by rewrite E, Hlen.
Qed.

Lemma observations_length (l : list pyfloat) :
  (length (observations l) ≤ length l)%nat.
Proof.
  induction l as [|[q|] l IH]; simpl; lia.
Qed.

Lemma observations_nan (l : list pyfloat) :
  finite_values l = None → (length (observations l) < length l)%nat.
Proof.
  induction l as [|[q|] l IH]; simpl; [done| |].
  - destruct (finite_values l); simpl; [done|]. intros _.
    specialize (IH eq_refl). lia.
  - intros _. pose proof (observations_length l). lia.
Qed.

(** A full window: its rolling mean is the mean of its values. *)
Lemma window_mean_full (w : Z) (win : list pyfloat) :
  1 ≤ w → Z.of_nat (length win) = w → window_mean w win = np_mean win.
Proof.
  intros Hw Hlen. unfold window_mean, np_mean, Qmean.
  destruct (finite_values win) as [qs|] eqn:Hfin.
  - apply finite_values_observations in Hfin as [-> Hqs].
    rewrite decide_True by lia. destruct qs; [simpl in *; lia | done].
  - apply observations_nan in Hfin. by rewrite decide_False by lia.
Qed.

(** A window cut short by the start of the column has no mean. *)
Lemma window_mean_short (w : Z) (win : list pyfloat) :
  Z.of_nat (length win) < w → window_mean w win = NaN.
Proof.
  intros Hlen. unfold window_mean. pose proof (observations_length win).
  by rewrite decide_False by lia.
Qed.

Lemma window_at_full (xs : list pyfloat) (w : Z) (i : nat) :
  1 ≤ w → w - 1 ≤ Z.of_nat i → (i < length xs)%nat →
  window_at xs w i = take (Z.to_nat w) (drop (S i - Z.to_nat w) xs) ∧
  Z.of_nat (length (window_at xs w i)) = w.
Proof.
  intros Hw Hi Hlen. unfold window_at.
  replace (Z.to_nat (Z.of_nat i - w + 1)) with (S i - Z.to_nat w)%nat by lia.
  split.
  - rewrite take_drop_commute. do 2 f_equal. lia.
  - rewrite length_drop, length_take. lia.
Qed.

Lemma window_at_short (xs : list pyfloat) (w : Z) (i : nat) :
  Z.of_nat i < w - 1 → Z.of_nat (length (window_at xs w i)) < w.
Proof.
  intros Hi. unfold window_at. rewrite length_drop, length_take. lia.
Qed.

Lemma rolling_mean_float (w : Z) (xs : list pyfloat) :
  0 ≤ w → rolling_mean w (FloatCol xs) = Ok (FloatCol (sma_column w xs)).
Proof. intros Hw. unfold rolling_mean. by rewrite decide_False by lia. Qed.

Lemma sma_column_spec (w : Z) (xs : list pyfloat) :
  1 ≤ w →
  length (sma_column w xs) = length xs ∧
  (∀ i, (i < length xs)%nat → Z.of_nat i < w - 1 →
     sma_column w xs !! i = Some NaN) ∧
  (∀ i, (i < length xs)%nat → w - 1 ≤ Z.of_nat i →
     sma_column w xs !! i
       = Some (np_mean (take (Z.to_nat w) (drop (S i - Z.to_nat w) xs)))).
Proof.
  intros Hw. unfold sma_column. split; [apply length_imap|]. split.
  - intros i Hi Hshort. rewrite list_lookup_imap.
    destruct (lookup_lt_is_Some_2 xs i Hi) as [x ->]. simpl.
    by rewrite window_mean_short by by apply window_at_short.
  - intros i Hi Hfull. rewrite list_lookup_imap.
    destruct (lookup_lt_is_Some_2 xs i Hi) as [x ->]. simpl.
    destruct (window_at_full xs w i Hw Hfull Hi) as [E Hlen].
    rewrite window_mean_full by done. by rewrite E.
Qed.

(** ** Columns and their names *)

Lemma dict_get_set_eq {V} (k : string) (v : V) (d : list (string * V)) :
  dict_get (dict_set k v d) k = Some v.
Proof.
  induction d as [|[k' v'] d IH]; simpl.
  - by rewrite decide_True.
  - destruct (decide (k' = k)) as [->|Hne]; simpl.
    + by rewrite decide_True.
    + by rewrite decide_False.
Qed.

Lemma dict_get_set_ne {V} (k k' : string) (v : V) (d : list (string * V)) :
  k ≠ k' → dict_get (dict_set k v d) k' = dict_get d k'.
Proof.
  intros Hne. induction d as [|[k0 v0] d IH]; simpl.
  - by rewrite decide_False.
  - destruct (decide (k0 = k)) as [->|Hk]; simpl.
    + by rewrite !decide_False.
    + destruct (decide (k0 = k')); [done | apply IH].
Qed.


Lemma sma_name_inj (col_name : string) : Inj (=) (=) (sma_name col_name).
Proof.
  intros w w' E. unfold sma_name in E.
  by apply String.app_inj, String.app_inj, pretty_Z_inj in E.
Qed.

Lemma sma_name_not_source (col_name : string) (w : Z) :
  sma_name col_name w ≠ col_name.
Proof.
  intros E. apply (f_equal String.length) in E.
  unfold sma_name in E. rewrite !string_app_length in E. simpl in E. lia.
Qed.

(** ** The loop of [get_sma_col] *)

Lemma sma_loop_spec (l : loc) (col_name : string) (ws : list Z) :
  ∀ (h : gmap loc DataFrame) (t : DataFrame) (r : result unit) (h' : gmap loc DataFrame),
    h !! l = Some t →
    sma_loop l col_name ws h = (r, h') →
    ∃ t',
      h' = <[l := t']> h ∧ index t' = index t ∧
      (∀ name, (∀ w, w ∈ ws → name ≠ sma_name col_name w) →
         dict_get (columns t') name = dict_get (columns t) name) ∧
      match r with
      | Ok _ =>
          ∀ w, w ∈ ws →
            ∃ c sma, dict_get (columns t) col_name = Some c ∧
                     rolling_mean w c = Ok sma ∧
                     dict_get (columns t') (sma_name col_name w) = Some sma
      | Raise e =>
          ∃ w, w ∈ ws ∧
            (df_getcol t col_name = Raise e ∨
             ∃ c, dict_get (columns t) col_name = Some c ∧ rolling_mean w c = Raise e)
      end.
Proof.
  induction ws as [|w ws IH]; intros h t r h' Ht; simpl.
  - intros [= <- <-]. exists t. rewrite insert_id by done.
    repeat split; try done. intros w Hw. by apply elem_of_nil in Hw.
  - cbv [mbind M_bind lift heap_read heap_write modify]. rewrite Ht.
    unfold df_getcol at 1. destruct (dict_get (columns t) col_name) as [c|] eqn:Hc.
    2:{ intros [= <- <-]. exists t. rewrite insert_id by done.
        repeat split; try done. exists w. split; [by left|].
        left. unfold df_getcol. by rewrite Hc. }
    destruct (rolling_mean w c) as [sma|e] eqn:Hsma.
    2:{ intros [= <- <-]. exists t. rewrite insert_id by done.
        repeat split; try done. exists w. split; [by left | eauto]. }
    rewrite Ht. set (t1 := df_setcol (sma_name col_name w) sma t).
    intros Hrest.
    destruct (IH (<[l := t1]> h) t1 r h') as (t' & -> & Hidx & Hnames & Hres);
      [apply lookup_insert_eq | done |].
    assert (dict_get (columns t1) col_name = Some c) as Hc1.
    { unfold t1. simpl. rewrite dict_get_set_ne; [done | apply sma_name_not_source]. }
    exists t'. split; [by rewrite insert_insert_eq|]. split; [done|]. split.
    + intros name Hname. rewrite Hnames.
      * unfold t1. simpl. apply dict_get_set_ne. apply not_eq_sym, Hname. by left.
      * intros w' Hw'. apply Hname. by right.
    + destruct r as [u|e].
      * intros w' Hw'. destruct (decide (w' ∈ ws)) as [Hin|Hnotin].
        -- destruct (Hres w' Hin) as (c' & sma' & Hc' & ? & ?).
           rewrite Hc1 in Hc'. simplify_eq. eauto.
        -- apply elem_of_cons in Hw' as [->|?]; [|done].
           exists c, sma. repeat split; try done. rewrite Hnames.
           ++ unfold t1. simpl. apply dict_get_set_eq.
           ++ intros w' Hw' E. apply sma_name_inj in E as ->. done.
      * destruct Hres as (w' & Hw' & Hfail). exists w'. split; [by right|].
        unfold df_getcol in *. rewrite Hc1 in Hfail. rewrite Hc.
        destruct Hfail as [?|(c' & ? & ?)]; [done|]. simplify_eq. eauto.
Qed.



Lemma df_copy_spec (l : loc) (h : gmap loc DataFrame) (t : DataFrame) :
  h !! l = Some t →
  df_copy l h = (Ok (fresh (dom h)), <[fresh (dom h) := t]> h) ∧
  h !! fresh (dom h) = None.
Proof.
  intros Ht. unfold df_copy, heap_alloc. cbv [mbind M_bind heap_read]. rewrite Ht.
  split; [done|]. apply not_elem_of_dom, is_fresh.
Qed.

Example get_sma_col_example :
  ∃ h', get_sma_col 1%positive "close" (WInt 3) {[ 1%positive := close_table ]}
          = (Ok 2%positive, h') ∧
        h' !! 2%positive
          = Some {| index := [0; 1; 2; 3];
                    columns := [("close", FloatCol [Fin 10; Fin 20; Fin 30; Fin 40]);
                                ("close_SMA_3", FloatCol [NaN; NaN; Fin 20; Fin 30])] |} ∧
        h' !! 1%positive = Some close_table.
Proof. eexists. split; [reflexivity|]. split; reflexivity. Qed.

Lemma finite_values_none (l : list pyfloat) :
  finite_values l = None ↔ NaN ∈ l.
Proof.
  induction l as [|[q|] l IH]; simpl.
  - split; [done | by intros ?%elem_of_nil].
  - destruct (finite_values l); simpl.
    + split; [done|]. intros [?|Hin]%elem_of_cons; [done|].
      by apply IH in Hin.
    + split; [|done]. intros _. right. by apply IH.
  - split; [|done]. intros _. by left.
Qed.



Lemma np_mean_nan (l : list pyfloat) : NaN ∈ l → np_mean l = NaN.
Proof. intros Hnan. unfold np_mean. by apply finite_values_none in Hnan as ->. Qed.



(** C7, as stated, fails in its second half: a column of the input that
    already bears the name [{col_name}_SMA_{w}] differs in the returned
    table, where the assignment has replaced it. *)
Lemma existing_sma_column_is_replaced :
  ∃ h',
    get_sma_col 1%positive "close" (WInt 2) {[ 1%positive := table_with_sma ]}
      = (Ok 2%positive, h') ∧
    h' !! 1%positive = Some table_with_sma ∧
    dict_get (columns table_with_sma) "close_SMA_2"
      = Some (FloatCol [Fin 0; Fin 0; Fin 0]) ∧
    fmap columns (h' !! 2%positive)
      = Some [("close", FloatCol [Fin 1; Fin 2; Fin 3]);
              ("close_SMA_2", FloatCol [NaN; Fin (3 # 2); Fin (5 # 2)])].
Proof. eexists. repeat split; reflexivity. Qed.

(** C7, amended.  [get_sma_col] does not mutate the input table: whatever it
    returns or raises, every table the caller had is unchanged.  The table it
    returns is a new object with the index of the input, and every column of
    the input whose name is not one of the generated names
    [{col_name}_SMA_{w}] is in it unchanged; the column [col_name] itself is
    always among those. *)
Theorem get_sma_col_leaves_input (h h' : gmap loc DataFrame) (df : loc)
    (col_name : string) (window : window_arg) (res : result loc) :
  get_sma_col df col_name window h = (res, h') →
  (∀ k, is_Some (h !! k) → h' !! k = h !! k) ∧
  (∀ new_df, res = Ok new_df →
     h !! new_df = None ∧
     ∃ table new_table,
       h !! df = Some table ∧ h' !! new_df = Some new_table ∧
       index new_table = index table ∧
       (∀ name, (∀ w, w ∈ as_window_list window → name ≠ sma_name col_name w) →
          dict_get (columns new_table) name = dict_get (columns table) name) ∧
       dict_get (columns new_table) col_name = dict_get (columns table) col_name).
Proof.
  unfold get_sma_col. cbv [mbind M_bind mret M_ret].
  destruct (h !! df) as [table|] eqn:Ht.
  2:{ unfold df_copy. cbv [mbind M_bind heap_read]. rewrite Ht.
      intros [= <- <-]. split; [done|]. by intros ? [=]. }
  destruct (df_copy_spec df h table Ht) as [-> Hfresh].
  set (l := fresh (dom h)) in *.
  destruct (sma_loop l col_name (as_window_list window) (<[l := table]> h))
    as [r h1] eqn:Hloop.
  destruct (sma_loop_spec _ _ _ _ _ _ _ (lookup_insert_eq _ _ _) Hloop)
    as (t' & -> & Hidx & Hnames & _).
  rewrite insert_insert_eq.
  intros Hres. assert (h' = <[l := t']> h ∧ (res = Ok l ∨ ∃ e, res = Raise e))
    as [-> Hr] by (destruct r; simplify_eq; eauto).
  split.
  - intros k [x Hk]. apply lookup_insert_ne. intros ->. congruence.
  - intros new_df ->. destruct Hr as [[= <-]|[? [=]]]. split; [done|].
    exists table, t'. rewrite lookup_insert_eq. repeat split; try done.
    apply Hnames. intros w _. apply not_eq_sym, sma_name_not_source.
Qed.

Lemma get_sma_col_leaves_input_witness :
  (get_sma_col 1%positive "close" (WInt 2)
     {[ 1%positive := table_with_sma ]}).2 !! 1%positive
    = Some table_with_sma.
Proof.
  assert (is_Some (({[ 1%positive := table_with_sma ]} : gmap loc DataFrame)
                     !! 1%positive))
    as Hdom by (eexists; apply lookup_singleton_eq).
  etrans;
    [exact (proj1 (get_sma_col_leaves_input {[ 1%positive := table_with_sma ]} _
                     1%positive "close" (WInt 2) _ (surjective_pairing _))
              1%positive Hdom)
    | apply lookup_singleton_eq].
Defined.

(** * Further properties of the code *)

(** ** Pivots *)

Section more_pivot_facts.
Context {A : Type} `{PyOrdLaws A}.

Lemma py_le_not_gt (x y : A) : py_le x y = true ↔ py_lt y x = false.
Proof.
  unfold py_le. rewrite orb_true_iff, py_eq_iff. split.
  - intros [Hlt|[_ ?]]; [|done].
    destruct (py_lt y x) eqn:Hyx; [|done].
    by rewrite <- (py_lt_irrefl x), <- (py_lt_trans x y x Hlt Hyx).
  - intros Hyx. destruct (py_lt x y); auto.
Qed.

Lemma py_le_trans (x y z : A) :
  py_le x y = true → py_le y z = true → py_le x z = true.
Proof.
  rewrite !py_le_not_gt. intros Hyx Hzy.
  destruct (py_lt z x) eqn:Hzx; [|done].
  destruct (py_lt_cotrans z y x Hzx); congruence.
Qed.
End more_pivot_facts.

(** [n_periods] is not checked against zero either.  With [n_periods = 0]
    the slice is empty and [min] raises; a negative [n_periods = -k] is taken
    by the slice as "all but the last [k]", so the pivots are those of the
    lists without their last [k] elements, and [min] raises when nothing is
    left of the low list. *)
Theorem get_pivots_nonpositive_periods {A} `{PyOrdLaws A}
    (low_list high_list : list A) :
  get_pivots low_list high_list 0
    = Raise (ValueError "min() arg is an empty sequence") ∧
  ∀ k : nat, (0 < k)%nat →
    ((k < length low_list)%nat → (k < length high_list)%nat →
       ∃ v_low i_low v_high i_high,
         get_pivots low_list high_list (- Z.of_nat k)
           = Ok ((v_low, Z.of_nat i_low), (v_high, Z.of_nat i_high)) ∧
         is_minimum (take (length low_list - k) low_list) v_low ∧
         first_occurrence (take (length low_list - k) low_list) v_low i_low ∧
         is_maximum (take (length high_list - k) high_list) v_high ∧
         first_occurrence (take (length high_list - k) high_list) v_high i_high) ∧
    ((length low_list ≤ k)%nat →
       get_pivots low_list high_list (- Z.of_nat k)
         = Raise (ValueError "min() arg is an empty sequence")).
Proof.
  split; [by destruct low_list|]. intros k Hk.
  assert (∀ l : list A,
            slice_to l (- Z.of_nat k) = take (length l - k) l) as Hslice.
  { intros l. unfold slice_to. destruct (Z.ltb_spec (- Z.of_nat k) 0); [|lia].
    f_equal. lia. }
  split.
  - intros Hlow Hhigh. rewrite <- !Hslice.
    apply get_pivots_spec; rewrite Hslice; intros E;
      apply (f_equal length) in E; rewrite length_take in E; simpl in E; lia.
  - intros Hlow. unfold get_pivots. rewrite Hslice.
    by replace (length low_list - k)%nat with 0%nat by lia.
Qed.

Lemma get_pivots_nonpositive_periods_witness :
  ∃ v_low i_low v_high i_high,
    get_pivots [3; 1; 2; 0] [4; 9; 9; 11] (- Z.of_nat 1)
      = Ok ((v_low, Z.of_nat i_low), (v_high, Z.of_nat i_high)) ∧
    is_minimum (take (length [3; 1; 2; 0] - 1) [3; 1; 2; 0]) v_low ∧
    first_occurrence (take (length [3; 1; 2; 0] - 1) [3; 1; 2; 0]) v_low i_low ∧
    is_maximum (take (length [4; 9; 9; 11] - 1) [4; 9; 9; 11]) v_high ∧
    first_occurrence (take (length [4; 9; 9; 11] - 1) [4; 9; 9; 11]) v_high i_high.
Proof.
  apply (proj2 (get_pivots_nonpositive_periods (A := Z) [3; 1; 2; 0] [4; 9; 9; 11])
           1%nat); simpl; lia.
Defined.

(** [get_pivots] looks at the first [n_periods] elements only: what comes
    after them in either list changes nothing. *)
Theorem get_pivots_ignores_later_periods {A} `{PyOrd A}
    (low_list high_list more_low more_high : list A) (n : Z) :
  0 ≤ n → n ≤ Z.of_nat (length low_list) → n ≤ Z.of_nat (length high_list) →
  get_pivots (low_list ++ more_low) (high_list ++ more_high) n
    = get_pivots low_list high_list n.
Proof.
  intros Hn Hlow Hhigh. unfold get_pivots.
  rewrite !slice_to_nonneg by done. by rewrite !take_app_le by lia.
Qed.

Lemma get_pivots_ignores_later_periods_witness :
  get_pivots ([3; 1; 2] ++ [0; -5]) ([4; 9; 9] ++ [11]) 3
    = get_pivots [3; 1; 2] [4; 9; 9] 3.
Proof.
  apply (get_pivots_ignores_later_periods (A := Z)); simpl; lia.
Defined.

(** When every low of the first [n_periods] periods is at most the high of
    the same period, the support [get_pivots] returns is at most the
    resistance, and both lags are below [n_periods]. *)
Theorem get_pivots_support_below_resistance {A} `{PyOrdLaws A}
    (low_list high_list : list A) (n : Z)
    (v_low v_high : A) (lag_low lag_high : Z) :
  1 ≤ n → n ≤ Z.of_nat (length low_list) → n ≤ Z.of_nat (length high_list) →
  (∀ (i : nat) x y, Z.of_nat i < n →
     low_list !! i = Some x → high_list !! i = Some y → py_le x y = true) →
  get_pivots low_list high_list n = Ok ((v_low, lag_low), (v_high, lag_high)) →
  py_le v_low v_high = true ∧ 0 ≤ lag_low < n ∧ 0 ≤ lag_high < n.
Proof.
  intros Hn Hlow Hhigh Hcandles Hrun.
  destruct (get_pivots_spec low_list high_list n)
    as (vl & il & vh & ih & Hres & [_ Hmin] & [[xl [Hil _]] _]
          & [_ Hmax] & [[xh [Hih _]] _]).
  { rewrite slice_to_nonneg by lia. intros E. apply (f_equal length) in E.
    rewrite length_take in E. simpl in E. lia. }
  { rewrite slice_to_nonneg by lia. intros E. apply (f_equal length) in E.
    rewrite length_take in E. simpl in E. lia. }
  rewrite Hres in Hrun. simplify_eq.
  rewrite slice_to_nonneg in * by lia.
  apply lookup_lt_Some in Hil, Hih. rewrite length_take in Hil, Hih.
  split; [|lia].
  destruct (lookup_lt_is_Some_2 low_list 0) as [x Hx]; [lia|].
  destruct (lookup_lt_is_Some_2 high_list 0) as [y Hy]; [lia|].
  apply (py_le_trans _ x); [|apply (py_le_trans _ y)].
  - apply Hmin. apply list_elem_of_lookup. exists 0%nat.
    rewrite lookup_take_lt by lia. done.
  - apply (Hcandles 0%nat); [lia|done..].
  - apply Hmax. apply list_elem_of_lookup. exists 0%nat.
    rewrite lookup_take_lt by lia. done.
Qed.

Lemma get_pivots_support_below_resistance_witness :
  py_le 1 9 = true ∧ 0 ≤ 1 < 3 ∧ 0 ≤ 1 < 3.
Proof.
  apply (get_pivots_support_below_resistance (A := Z) [3; 1; 2; 0] [4; 9; 9; 11] 3
           1 9 1 1); [simpl; lia.. | | reflexivity].
  intros [|[|[|i]]] x y Hi Hx Hy; simplify_eq/=; try reflexivity. lia.
Defined.

(** ** Average volume *)

(** [get_average_volume] raises nothing and answers nan when there is
    nothing to average (an empty list, [n_periods = 0], or a negative
    [n_periods = -k] with [k] at least the length of the list) and when a
    volume that is averaged is nan: one at a position below [n_periods], or,
    for [n_periods = -k], one that is not among the last [k].  The converse is
    not claimed: floats have other ways to a nan. *)
Theorem get_average_volume_nan (volume_list : list pyfloat) (n : Z) :
  (volume_list = [] ∨ n = 0 ∨ (n < 0 ∧ Z.of_nat (length volume_list) + n ≤ 0)) ∨
  (∃ i : nat,
     volume_list !! i = Some NaN ∧
     (Z.of_nat i < n ∨ (n < 0 ∧ Z.of_nat i < Z.of_nat (length volume_list) + n))) →
  get_average_volume volume_list n = Ok NaN.
Proof.
  unfold get_average_volume, slice_to. intros [Hempty|(i & Hi & Hin)].
  - assert ((if n <? 0
             then take (Z.to_nat (Z.of_nat (length volume_list) + n)) volume_list
             else take (Z.to_nat n) volume_list) = []) as ->; [|done].
    destruct Hempty as [->|[->|[Hneg Hlen]]].
    + by destruct (n <? 0); rewrite take_nil.
    + done.
    + rewrite (proj2 (Z.ltb_lt n 0)) by done.
      by replace (Z.to_nat (Z.of_nat (length volume_list) + n)) with 0%nat by lia.
  - f_equal. apply np_mean_nan, list_elem_of_lookup. exists i.
    destruct Hin as [Hpos|[Hneg Hlen]].
    + rewrite (proj2 (Z.ltb_ge n 0)) by lia. rewrite lookup_take_lt by lia. done.
    + rewrite (proj2 (Z.ltb_lt n 0)) by done. rewrite lookup_take_lt by lia. done.
Qed.

Lemma get_average_volume_nan_witness :
  get_average_volume [Fin 10; Fin 20] 0 = Ok NaN ∧
  get_average_volume [Fin 10; Fin 20] (-2) = Ok NaN ∧
  get_average_volume [Fin 10; NaN; Fin 30; Fin 40] 3 = Ok NaN.
Proof.
  split; [|split].
  - apply (get_average_volume_nan [Fin 10; Fin 20] 0). left. right. by left.
  - apply (get_average_volume_nan [Fin 10; Fin 20] (-2)). left. right. right.
    simpl. lia.
  - apply (get_average_volume_nan [Fin 10; NaN; Fin 30; Fin 40] 3).
    right. exists 1%nat. split; [reflexivity | left; lia].
Defined.

(** ** Moving-average columns *)

Lemma dict_set_same {V} (k : string) (v : V) (d : list (string * V)) :
  dict_get d k = Some v → dict_set k v d = d.
Proof.
  induction d as [|[k0 v0] d IH]; simpl; [done|].
  destruct (decide (k0 = k)) as [->|]; [by intros [= ->]|].
  intros Hd. by rewrite IH.
Qed.

(** On a numeric column and windows that are not negative the loop runs to
    its end, and its effect on the new table is [with_sma_columns]. *)
Lemma sma_loop_run (l : loc) (col_name : string) (xs : list pyfloat) (ws : list Z) :
  ∀ (h : gmap loc DataFrame) (t : DataFrame),
    h !! l = Some t →
    dict_get (columns t) col_name = Some (FloatCol xs) →
    Forall (λ w, 0 ≤ w) ws →
    sma_loop l col_name ws h
      = (Ok tt, <[l := with_sma_columns col_name xs ws t]> h).
Proof.
  induction ws as [|w ws IH]; intros h t Ht Hcol Hws; simpl.
  - cbv [mret M_ret]. by rewrite insert_id.
  - apply Forall_cons in Hws as [Hw Hws].
    cbv [mbind M_bind lift heap_read heap_write modify]. rewrite Ht.
    unfold df_getcol. rewrite Hcol, rolling_mean_float by lia. rewrite Ht.
    rewrite (IH _ (df_setcol (sma_name col_name w) (FloatCol (sma_column w xs)) t)).
    + by rewrite insert_insert_eq.
    + apply lookup_insert_eq.
    + simpl. rewrite dict_get_set_ne; [done | apply sma_name_not_source].
    + done.
Qed.

Lemma with_sma_columns_source (col_name : string) (xs : list pyfloat)
    (ws : list Z) (t : DataFrame) :
  dict_get (columns (with_sma_columns col_name xs ws t)) col_name
    = dict_get (columns t) col_name.
Proof.
  revert t. induction ws as [|w ws IH]; intros t; simpl; [done|].
  unfold with_sma_columns in *. rewrite IH. simpl.
  apply dict_get_set_ne, sma_name_not_source.
Qed.

Lemma with_sma_columns_other (col_name : string) (xs : list pyfloat)
    (ws : list Z) (t : DataFrame) (name : string) :
  (∀ w, w ∈ ws → name ≠ sma_name col_name w) →
  dict_get (columns (with_sma_columns col_name xs ws t)) name
    = dict_get (columns t) name.
Proof.
  revert t. induction ws as [|w ws IH]; intros t Hname; simpl; [done|].
  unfold with_sma_columns in *. rewrite IH by (intros w' ?; apply Hname; by right).
  simpl. apply dict_get_set_ne, not_eq_sym, Hname. by left.
Qed.

Lemma with_sma_columns_lookup (col_name : string) (xs : list pyfloat)
    (ws : list Z) (t : DataFrame) (w : Z) :
  w ∈ ws →
  dict_get (columns (with_sma_columns col_name xs ws t)) (sma_name col_name w)
    = Some (FloatCol (sma_column w xs)).
Proof.
  revert t. induction ws as [|w0 ws IH]; intros t Hw; [by apply elem_of_nil in Hw|].
  destruct (decide (w ∈ ws)) as [Hin|Hnotin]; [by apply IH|].
  apply elem_of_cons in Hw as [->|?]; [|done].
  change (with_sma_columns col_name xs (w0 :: ws) t)
    with (with_sma_columns col_name xs ws
            (df_setcol (sma_name col_name w0) (FloatCol (sma_column w0 xs)) t)).
  rewrite with_sma_columns_other.
  - apply dict_get_set_eq.
  - intros w' Hw' E. apply sma_name_inj in E as ->. done.
Qed.

Lemma with_sma_columns_index (col_name : string) (xs : list pyfloat)
    (ws : list Z) (t : DataFrame) :
  index (with_sma_columns col_name xs ws t) = index t.
Proof.
  revert t. induction ws as [|w ws IH]; intros t; [done|].
  unfold with_sma_columns in *. simpl. by rewrite IH.
Qed.

(** Windows whose columns the table already holds change nothing. *)
Lemma with_sma_columns_fixed (col_name : string) (xs : list pyfloat)
    (ws : list Z) (t : DataFrame) :
  (∀ w, w ∈ ws →
     dict_get (columns t) (sma_name col_name w) = Some (FloatCol (sma_column w xs))) →
  with_sma_columns col_name xs ws t = t.
Proof.
  induction ws as [|w ws IH]; intros Hws; [done|].
  change (with_sma_columns col_name xs (w :: ws) t)
    with (with_sma_columns col_name xs ws
            (df_setcol (sma_name col_name w) (FloatCol (sma_column w xs)) t)).
  assert (df_setcol (sma_name col_name w) (FloatCol (sma_column w xs)) t = t) as ->.
  { unfold df_setcol. rewrite dict_set_same by (apply Hws; by left). by destruct t. }
  apply IH. intros w' ?. apply Hws. by right.
Qed.

Lemma get_sma_col_run (h : gmap loc DataFrame) (df : loc) (t : DataFrame)
    (col_name : string) (xs : list pyfloat) (window : window_arg) :
  h !! df = Some t →
  dict_get (columns t) col_name = Some (FloatCol xs) →
  Forall (λ w, 0 ≤ w) (as_window_list window) →
  get_sma_col df col_name window h
    = (Ok (fresh (dom h)),
       <[fresh (dom h) := with_sma_columns col_name xs (as_window_list window) t]> h).
Proof.
  intros Ht Hcol Hws. unfold get_sma_col. cbv [mbind M_bind mret M_ret].
  destruct (df_copy_spec df h t Ht) as [-> _].
  rewrite (sma_loop_run _ col_name xs _ _ t); [|apply lookup_insert_eq|done..].
  by rewrite insert_insert_eq.
Qed.

(** Calling [get_sma_col] again on its own result, with the same column and
    windows, returns a third table equal to the second: the columns it
    assigns are already there with the same values. *)
Theorem get_sma_col_again (h : gmap loc DataFrame) (df : loc) (t : DataFrame)
    (col_name : string) (xs : list pyfloat) (window : window_arg) :
  h !! df = Some t →
  dict_get (columns t) col_name = Some (FloatCol xs) →
  Forall (λ w, 1 ≤ w) (as_window_list window) →
  ∃ once twice h1 h2 t1,
    get_sma_col df col_name window h = (Ok once, h1) ∧
    get_sma_col once col_name window h1 = (Ok twice, h2) ∧
    once ≠ twice ∧
    h2 !! once = Some t1 ∧ h2 !! twice = Some t1.
Proof.
  intros Ht Hcol Hws.
  assert (Forall (λ w, 0 ≤ w) (as_window_list window)) as Hws0
    by (eapply Forall_impl; [done | simpl; lia]).
  set (ws := as_window_list window) in *.
  set (t1 := with_sma_columns col_name xs ws t).
  set (l1 := fresh (dom h)). set (h1 := <[l1 := t1]> h).
  assert (h1 !! l1 = Some t1) as Hl1 by apply lookup_insert_eq.
  assert (is_Some (h1 !! l1)) as Hdom by eauto.
  apply elem_of_dom in Hdom. pose proof (is_fresh (dom h1)) as Hfresh.
  exists l1, (fresh (dom h1)), h1,
    (<[fresh (dom h1) := t1]> h1), t1.
  split; [by apply get_sma_col_run|]. split; [|split; [|split]].
  - rewrite (get_sma_col_run h1 l1 t1 col_name xs window Hl1); [|..|done].
    + fold ws. rewrite with_sma_columns_fixed; [done|].
      intros w Hw. by apply with_sma_columns_lookup.
    + unfold t1. by rewrite with_sma_columns_source.
  - intros E. rewrite <- E in Hfresh. done.
  - rewrite lookup_insert_ne; [done|]. intros E. rewrite E in Hfresh. done.
  - apply lookup_insert_eq.
Qed.

Lemma get_sma_col_again_witness :
  ∃ once twice h1 h2 t1,
    get_sma_col 1%positive "close" (WList [2; 3]) {[ 1%positive := close_table ]}
      = (Ok once, h1) ∧
    get_sma_col once "close" (WList [2; 3]) h1 = (Ok twice, h2) ∧
    once ≠ twice ∧
    h2 !! once = Some t1 ∧ h2 !! twice = Some t1.
Proof.
  apply (get_sma_col_again _ _ close_table "close"
           [Fin 10; Fin 20; Fin 30; Fin 40]).
  - apply lookup_singleton_eq.
  - reflexivity.
  - simpl. repeat (constructor; [lia|]). constructor.
Defined.



(** A window longer than the table leaves nothing but missing values: the
    column it adds has one nan per row. *)
Theorem get_sma_col_window_too_long (h : gmap loc DataFrame) (df : loc)
    (t : DataFrame) (col_name : string) (xs : list pyfloat) (w : Z) :
  h !! df = Some t →
  dict_get (columns t) col_name = Some (FloatCol xs) →
  Z.of_nat (length xs) < w →
  ∃ new_df new_table h',
    get_sma_col df col_name (WInt w) h = (Ok new_df, h') ∧
    h' !! new_df = Some new_table ∧
    dict_get (columns new_table) (sma_name col_name w)
      = Some (FloatCol (replicate (length xs) NaN)).
Proof.
  intros Ht Hcol Hw.
  eexists _, _, _. split.
  { apply (get_sma_col_run h df t col_name xs (WInt w) Ht Hcol).
    simpl. constructor; [lia | constructor]. }
  split; [apply lookup_insert_eq|].
  rewrite with_sma_columns_lookup by (simpl; by left). do 2 f_equal.
  destruct (sma_column_spec w xs) as (Hlen & Hshort & _); [lia|].
  apply list_eq. intros i. destruct (decide (i < length xs)%nat) as [Hi|Hi].
  - rewrite Hshort by lia. symmetry. by apply lookup_replicate_2.
  - rewrite !lookup_ge_None_2; [done|..]; rewrite ?length_replicate; lia.
Qed.

Lemma get_sma_col_window_too_long_witness :
  ∃ new_df new_table h',
    get_sma_col 1%positive "close" (WInt 9) {[ 1%positive := close_table ]}
      = (Ok new_df, h') ∧
    h' !! new_df = Some new_table ∧
    dict_get (columns new_table) (sma_name "close" 9)
      = Some (FloatCol (replicate (length [Fin 10; Fin 20; Fin 30; Fin 40]) NaN)).
Proof.
  apply (get_sma_col_window_too_long _ _ close_table "close"
           [Fin 10; Fin 20; Fin 30; Fin 40] 9).
  - apply lookup_singleton_eq.
  - reflexivity.
  - simpl. lia.
Defined.

(** ** Tables of moving averages, continued *)

Lemma comprehension_first_failure {A B} (f : A → result B)
    (before : list A) (x : A) (after : list A) (e : exn) :
  Forall (λ y, ∃ b, f y = Ok b) before → f x = Raise e →
  comprehension f (before ++ x :: after)%list = Raise e.
Proof.
  intros Hbefore Hx. induction Hbefore as [|y before [b Hy] _ IH]; simpl.
  - by rewrite Hx.
  - by rewrite Hy, IH.
Qed.

(** [build_sma_df] is all or nothing: the first entry whose value does not
    give a float makes the whole call raise, and decides the exception.  After
    entries that are objects whose ['SMA'] is a string [float] accepts, an
    object without the key ['SMA'] gives [KeyError 'SMA'], an object whose
    ['SMA'] is a string [float] rejects gives a [ValueError], and a value that
    is not an object (null, a number, a string, a list) gives [TypeError];
    what comes after that entry is not looked at. *)
Theorem build_sma_df_failures (float_of_string : string → option pyfloat)
    (before : list (string * json)) (date : string) (tmp : json)
    (after : list (string * json)) (sma_days ticker gapping_date : string) :
  Forall (λ kv, ∃ o s x, kv.2 = JDict o ∧ dict_get o "SMA" = Some (JStr s) ∧
                         float_of_string s = Some x) before →
  let outcome :=
    build_sma_df float_of_string (before ++ (date, tmp) :: after)%list
      sma_days ticker gapping_date in
  (∀ o, tmp = JDict o → dict_get o "SMA" = None →
     outcome = Raise (KeyError (SKey "SMA"))) ∧
  (∀ o s, tmp = JDict o → dict_get o "SMA" = Some (JStr s) →
     float_of_string s = None → ∃ msg, outcome = Raise (ValueError msg)) ∧
  ((∀ o, tmp ≠ JDict o) → outcome = Raise TypeError).
Proof.
  intros Hbefore outcome.
  assert (∀ e, float_of_SMA float_of_string tmp = Raise e → outcome = Raise e)
    as Hfirst.
  { intros e He. unfold outcome, build_sma_df, dict_values.
    rewrite fmap_app, fmap_cons.
    rewrite (comprehension_first_failure _ _ _ _ e); [done| |done].
    apply Forall_fmap. eapply Forall_impl; [exact Hbefore|].
    intros kv (o & s & x & Hkv & Ho & Hs). exists x. simpl.
    unfold float_of_SMA. rewrite Hkv. simpl. rewrite Ho. simpl. by rewrite Hs. }
  split; [|split].
  - intros o -> Ho. apply Hfirst. unfold float_of_SMA. simpl. by rewrite Ho.
  - intros o s -> Ho Hs. eexists. apply Hfirst.
    unfold float_of_SMA. simpl. rewrite Ho. simpl. by rewrite Hs.
  - intros Hobj. apply Hfirst. unfold float_of_SMA.
    destruct tmp; try done. by destruct (Hobj d).
Qed.

Lemma build_sma_df_failures_witness :
  build_sma_df float_of_two_literals
    [("2020-01-02", JDict [("SMA", JStr "2.0")]);
     ("2020-01-01", JDict [("sma", JStr "1.0")]);
     ("2019-12-31", JNull)]
    "20" "AAPL" "2020-03-18"
  = Raise (KeyError (SKey "SMA")).
Proof.
  apply (build_sma_df_failures float_of_two_literals
           [("2020-01-02", JDict [("SMA", JStr "2.0")])]
           "2020-01-01" (JDict [("sma", JStr "1.0")]) [("2019-12-31", JNull)]
           "20" "AAPL" "2020-03-18") with (o := [("sma", JStr "1.0")]).
  - constructor; [|constructor].
    exists [("SMA", JStr "2.0")], "2.0", (Fin 2). by repeat split.
  - reflexivity.
  - reflexivity.
Defined.

(** The table of [build_sma_df] before and after the mask, on a mapping whose
    values all convert. *)
Lemma build_sma_df_run (float_of_string : string → option pyfloat)
    (sma_dict : list (string * json)) (vals : list pyfloat)
    (sma_days ticker gapping_date : string) :
  Forall2 (λ entry x, float_of_SMA float_of_string entry.2 = Ok x) sma_dict vals →
  let entries := zip (dict_keys sma_dict) vals in
  build_sma_df float_of_string sma_dict sma_days ticker gapping_date
    = Ok (df_select
            ((λ e, negb (bool_decide (e.1 = gapping_date))) <$> entries)
            (frame_of_rows ((λ e, (ticker, e.1, gapping_date, e.2)) <$> entries)
               "ticker" "date" "gapping_date" ("SMA_" +:+ sma_days))) ∧
  length entries = length sma_dict.
Proof.
  intros Hvals entries.
  assert (length (dict_keys sma_dict) = length vals) as Hlen.
  { unfold dict_keys. rewrite length_fmap. by eapply Forall2_length. }
  split.
  - assert (comprehension (float_of_SMA float_of_string) (dict_values sma_dict)
            = Ok vals) as Hcomp.
    { apply comprehension_ok. unfold dict_values. by apply Forall2_fmap_l. }
    unfold build_sma_df. rewrite Hcomp. cbn [rbind].
    rewrite !const_fmap_seq, zip_rows by done. fold entries.
    assert (∀ rows c4,
              df_getcol (frame_of_rows rows "ticker" "date" "gapping_date" c4) "date"
              = Ok (ObjCol ((λ r, r.1.1.2) <$> rows))) as Hdate by reflexivity.
    rewrite Hdate. cbn [rbind col_ne]. by rewrite <- !list_fmap_compose.
  - unfold entries. rewrite length_zip, Hlen, Nat.min_id.
    symmetry. by eapply Forall2_length.
Qed.

Lemma const_fmap_length {A B} (b : B) (l : list A) :
  (λ _, b) <$> l = replicate (length l) b.
Proof. induction l as [|x l IH]; [done|]. by rewrite fmap_cons, IH. Qed.

Lemma select_elem {A} (mask : list bool) (l : list A) (x : A) :
  x ∈ select mask l ↔ ∃ i, mask !! i = Some true ∧ l !! i = Some x.
Proof.
  unfold select. rewrite list_elem_of_fmap. split.
  - intros ([b y] & -> & Hin). apply list_elem_of_filter in Hin as [Hb Hin].
    simpl in Hb. subst b. apply list_elem_of_lookup in Hin as [i Hi].
    apply lookup_zip_with_Some in Hi as (b & y' & [= <- <-] & ? & ?). eauto.
  - intros (i & Hm & Hl). exists (true, x). split; [done|].
    apply list_elem_of_filter. split; [done|].
    apply list_elem_of_lookup. exists i. apply lookup_zip_with_Some. eauto.
Qed.

Lemma select_all {A} (mask : list bool) (l : list A) :
  Forall (λ b, b = true) mask → length mask = length l → select mask l = l.
Proof.
  unfold select. revert l. induction mask as [|b mask IH]; intros [|x l] Hall Hlen;
    simplify_eq/=; [done|].
  apply Forall_cons in Hall as [-> Hall]. rewrite filter_cons_True by done.
  simpl. f_equal. by apply IH.
Qed.

(** The rows [build_sma_df] keeps carry the labels they had before the
    gapping date was dropped: the index of the table holds the position, in
    the mapping, of every date other than the gapping date, and no other
    label; it is not renumbered. *)
Theorem build_sma_df_keeps_labels (float_of_string : string → option pyfloat)
    (sma_dict : list (string * json)) (vals : list pyfloat)
    (sma_days ticker gapping_date : string) :
  Forall2 (λ entry x, float_of_SMA float_of_string entry.2 = Ok x) sma_dict vals →
  ∃ df,
    build_sma_df float_of_string sma_dict sma_days ticker gapping_date = Ok df ∧
    ∀ z, z ∈ index df
         ↔ ∃ (i : nat) date,
             z = Z.of_nat i ∧ dict_keys sma_dict !! i = Some date ∧
             date ≠ gapping_date.
Proof.
  intros Hvals.
  destruct (build_sma_df_run float_of_string sma_dict vals sma_days ticker
              gapping_date Hvals) as [-> Hlen].
  assert (length (dict_keys sma_dict) = length vals) as Hkeys.
  { unfold dict_keys. rewrite length_fmap. by eapply Forall2_length. }
  eexists. split; [done|]. intros z. cbn [index df_select frame_of_rows].
  rewrite select_elem, length_fmap. split.
  - intros (i & Hmask & Hz). apply lookup_seqZ in Hz as [-> _].
    rewrite list_lookup_fmap in Hmask.
    destruct (zip (dict_keys sma_dict) vals !! i) as [[d v]|] eqn:Hi; [|done].
    simpl in Hmask. apply lookup_zip_with_Some in Hi as (d' & v' & [= <- <-] & Hd & _).
    exists i, d. split; [lia|]. split; [done|].
    intros ->. by rewrite bool_decide_eq_true_2 in Hmask.
  - intros (i & d & -> & Hd & Hne). exists i.
    assert (i < length vals)%nat as Hi
      by (rewrite <- Hkeys; by eapply lookup_lt_Some).
    destruct (lookup_lt_is_Some_2 vals i Hi) as [v Hv].
    rewrite list_lookup_fmap.
    assert (zip (dict_keys sma_dict) vals !! i = Some (d, v)) as ->
      by (apply lookup_zip_with_Some; eauto).
    simpl. rewrite bool_decide_eq_false_2 by done. split; [done|].
    apply lookup_seqZ. split; [lia|].
    rewrite length_zip, Hkeys, Nat.min_id. lia.
Qed.

Lemma build_sma_df_keeps_labels_witness :
  ∃ df,
    build_sma_df float_of_two_literals
      [("2020-01-02", JDict [("SMA", JStr "2.0")]);
       ("2020-01-01", JDict [("SMA", JStr "1.0")])]
      "20" "AAPL" "2020-01-02" = Ok df ∧
    ∀ z, z ∈ index df
         ↔ ∃ (i : nat) date,
             z = Z.of_nat i ∧
             dict_keys [("2020-01-02", JDict [("SMA", JStr "2.0")]);
                        ("2020-01-01", JDict [("SMA", JStr "1.0")])] !! i
               = Some date ∧
             date ≠ "2020-01-02".
Proof.
  apply (build_sma_df_keeps_labels float_of_two_literals _ [Fin 2; Fin 1]).
  repeat constructor.
Defined.

(** When the gapping date is not a date of the mapping nothing is dropped:
    the table has one row per entry, in the order of the mapping, labelled
    [0 .. n-1]; in particular an empty mapping gives the four columns with no
    row. *)
Theorem build_sma_df_without_gapping_date
    (float_of_string : string → option pyfloat)
    (sma_dict : list (string * json)) (vals : list pyfloat)
    (sma_days ticker gapping_date : string) :
  Forall2 (λ entry x, float_of_SMA float_of_string entry.2 = Ok x) sma_dict vals →
  gapping_date ∉ dict_keys sma_dict →
  build_sma_df float_of_string sma_dict sma_days ticker gapping_date
    = Ok {| index := seqZ 0 (Z.of_nat (length sma_dict));
            columns := [("ticker", ObjCol (replicate (length sma_dict) ticker));
                        ("date", ObjCol (dict_keys sma_dict));
                        ("gapping_date",
                         ObjCol (replicate (length sma_dict) gapping_date));
                        ("SMA_" +:+ sma_days, FloatCol vals)] |}.
Proof.
  intros Hvals Hfresh.
  destruct (build_sma_df_run float_of_string sma_dict vals sma_days ticker
              gapping_date Hvals) as [-> Hlen].
  assert (length (dict_keys sma_dict) = length vals) as Hkeys.
  { unfold dict_keys. rewrite length_fmap. by eapply Forall2_length. }
  assert (length vals = length sma_dict) as Hvlen
    by (symmetry; by eapply Forall2_length).
  set (entries := zip (dict_keys sma_dict) vals) in *.
  set (mask := (λ e : string * pyfloat, negb (bool_decide (e.1 = gapping_date)))
                 <$> entries).
  assert (Forall (λ b, b = true) mask) as Hmask.
  { apply Forall_fmap, Forall_forall. intros [d v] Hin. simpl.
    apply negb_true_iff, bool_decide_eq_false. intros ->. apply Hfresh.
    apply list_elem_of_lookup in Hin as [i Hi].
    apply lookup_zip_with_Some in Hi as (? & ? & [= <- <-] & ? & _).
    apply list_elem_of_lookup. eauto. }
  assert (length mask = length sma_dict) as Hmlen
    by (unfold mask; by rewrite length_fmap).
  f_equal. unfold df_select, frame_of_rows.
  cbn [index columns fmap list_fmap prod_map col_select fst snd id].
  rewrite !select_all by (rewrite ?length_seqZ, ?length_fmap; done || lia).
  rewrite length_fmap, Hlen, <- !list_fmap_compose. f_equal.
  assert ((λ e : string * pyfloat, e.1) <$> entries = dict_keys sma_dict) as Efst.
  { unfold entries. apply fst_zip. lia. }
  assert ((λ e : string * pyfloat, e.2) <$> entries = vals) as Esnd.
  { unfold entries. apply snd_zip. lia. }
  repeat f_equal.
  - rewrite <- Hlen. apply (const_fmap_length ticker entries).
  - exact Efst.
  - rewrite <- Hlen. apply (const_fmap_length gapping_date entries).
  - exact Esnd.
Qed.

Lemma build_sma_df_without_gapping_date_witness :
  build_sma_df float_of_two_literals
    [("2020-01-02", JDict [("SMA", JStr "2.0")]);
     ("2020-01-01", JDict [("SMA", JStr "1.0")])]
    "20" "AAPL" "2020-03-18"
  = Ok {| index := [0; 1];
          columns := [("ticker", ObjCol ["AAPL"; "AAPL"]);
                      ("date", ObjCol ["2020-01-02"; "2020-01-01"]);
                      ("gapping_date", ObjCol ["2020-03-18"; "2020-03-18"]);
                      ("SMA_20", FloatCol [Fin 2; Fin 1])] |}.
Proof.
  apply (build_sma_df_without_gapping_date float_of_two_literals
           [("2020-01-02", JDict [("SMA", JStr "2.0")]);
            ("2020-01-01", JDict [("SMA", JStr "1.0")])]
           [Fin 2; Fin 1] "20" "AAPL" "2020-03-18").
  - repeat constructor.
  - intros Hin. simpl in Hin.
    repeat (apply elem_of_cons in Hin as [[=]|Hin]).
    by apply elem_of_nil in Hin.
Defined.

(** ** The brokerage client, continued *)

Lemma store_token_keeps_net (r : response) (w w' : world Questrade)
    (res : result json) :
  store_token r w = (res, w') → net w' = net w.
Proof.
  unfold store_token, resp_json.
  destruct (bool_decide (text r = "Bad Request")); run_method; [by intros [= _ <-]|].
  destruct (json_body r) as [tok|]; simpl; [|by intros [= _ <-]].
  destruct (py_getitem tok (SKey "token_type")) as [tt|]; simpl; [|by intros [= _ <-]].
  destruct (as_str tt); simpl; [|by intros [= _ <-]].
  destruct (py_getitem tok (SKey "access_token")) as [at'|]; simpl; [|by intros [= _ <-]].
  destruct (as_str at'); simpl; by intros [= _ <-].
Qed.

Lemma one_exchange_none (w w' : world Questrade) :
  net w' = net w → one_exchange w w'.
Proof.
  intros E. exists [], []. rewrite E, app_nil_r. repeat split; simpl; try lia.
  by intros rq ?%elem_of_nil.
Qed.

Lemma session_get_exchange (u : string) (w w' : world Questrade)
    (res : result response) :
  session_get session u w = (res, w') →
  self w' = self w ∧ ∀ w'', net w'' = net w' → one_exchange w w''.
Proof.
  unfold session_get. destruct (pending (net w)) as [|r rs] eqn:Hp;
    intros [= <- <-]; (split; [done|]); intros w'' E; unfold one_exchange;
    rewrite E; simpl.
  - exists [request_of (session (self w)) u], []. rewrite Hp.
    repeat split; simpl; try lia. by intros rq ->%list_elem_of_singleton.
  - exists [request_of (session (self w)) u], [r]. rewrite Hp.
    repeat split; simpl; try lia. by intros rq ->%list_elem_of_singleton.
Qed.

Lemma fetch_exchange {B} (v e suffix : string)
    (k : json → M (world Questrade) B) (w w' : world Questrade) (res : result B) :
  (∀ resp w1 res1 w2, k resp w1 = (res1, w2) → net w2 = net w1) →
  (u ← api_url v e;
   r ← session_get session (u +:+ suffix);
   resp ← lift (resp_json r);
   k resp) w = (res, w') →
  one_exchange w w'.
Proof.
  intros Hk. cbv [mbind M_bind lift].
  destruct (api_url v e w) as [[u|] w1] eqn:E1; apply api_url_inv in E1 as ->;
    [|intros [= _ <-]; by apply one_exchange_none].
  destruct (session_get session (u +:+ suffix) w) as [[r|] w2] eqn:E2;
    apply session_get_exchange in E2 as [_ Hex]; [|intros [= _ <-]; by apply Hex].
  destruct (resp_json r) as [resp|]; [|intros [= _ <-]; by apply Hex].
  intros Hrun. apply Hex. by eapply Hk.
Qed.

(** Every public method of the client calls [session.get] at most once: no
    method asks twice, each asks with the headers the session had when the
    method was called (a token exchange puts the new [Authorization] into the
    session only after its own call), and none takes a response without
    having asked. *)
Theorem every_call_is_one_exchange (py_repr : json → string) (c : call)
    (w : world Questrade) :
  one_exchange w (perform py_repr c w).2.
Proof.
  destruct (perform py_repr c w) as [res w'] eqn:Hrun. simpl.
  destruct c; simpl in Hrun.
  - revert Hrun. unfold get_access_token. cbv [mbind M_bind the_self].
    destruct (session_get session _ w) as [[r|] w1] eqn:E1;
      apply session_get_exchange in E1 as [_ Hex]; [|intros [= _ <-]; by apply Hex].
    intros Hstore. apply Hex. by eapply store_token_keeps_net.
  - revert Hrun. unfold refresh_access_token.
    cbv [mbind M_bind lift read_access_token the_self].
    destruct (access_token (self w)) as [tok|]; cbv [mret M_ret raise];
      [|intros [= _ <-]; by apply one_exchange_none].
    destruct (py_getitem tok (SKey "refresh_token")) as [rt|];
      [|intros [= _ <-]; by apply one_exchange_none].
    destruct (as_str rt) as [refresh|]; [|intros [= _ <-]; by apply one_exchange_none].
    destruct (session_get session _ w) as [[r|] w1] eqn:E1;
      apply session_get_exchange in E1 as [_ Hex]; [|intros [= _ <-]; by apply Hex].
    intros Hstore. apply Hex. by eapply store_token_keeps_net.
  - apply (fetch_exchange api_version "accounts" ""
             (λ resp, on_self (set_accounts resp);; q ← the_self; mret (accounts q))
             w w' res).
    + intros resp w1 res1 w2. cbv [mbind M_bind on_self modify the_self mret M_ret].
      by intros [= _ <-].
    + rewrite <- Hrun. unfold get_accounts. cbv [mbind M_bind lift].
      destruct (api_url api_version "accounts" w) as [[u|] w1]; [|done].
      assert (u +:+ "" = u) as -> by (clear; induction u as [|a u IH]; [done|];
        unfold String.append; fold String.append; simpl; by rewrite IH).
      done.
  - apply (fetch_exchange api_version "markets/candles"
             ("/" +:+ symbol_id +:+ "?startTime=" +:+ (start_time +:+ tz_suffix)
                +:+ "&endTime=" +:+ (end_time +:+ tz_suffix)
                +:+ "&interval=" +:+ time_interval)
             (λ resp, mret resp) w w' res).
    + intros resp w1 res1 w2. cbv [mret M_ret]. by intros [= _ <-].
    + rewrite <- Hrun. unfold get_candles. cbv [mbind M_bind lift mret M_ret].
      destruct (api_url api_version "markets/candles" w) as [[u|] w1]; [|done].
      destruct (session_get _ _ w1) as [[r|] w2]; [|done].
      by destruct (resp_json r).
  - apply (fetch_exchange api_version "markets/quotes" ("/" +:+ symbol_id)
             (λ resp, mret resp) w w' res).
    + intros resp w1 res1 w2. cbv [mret M_ret]. by intros [= _ <-].
    + rewrite <- Hrun. unfold get_quote. cbv [mbind M_bind lift mret M_ret].
      destruct (api_url api_version "markets/quotes" w) as [[u|] w1]; [|done].
      destruct (session_get _ _ w1) as [[r|] w2]; [|done].
      by destruct (resp_json r).
  - apply (fetch_exchange api_version "symbols/search" ("?prefix=" +:+ ticker)
             (λ resp,
                id ← (symbol ← lift (first_symbol resp "symbol");
                      if json_eq_str symbol ticker then
                        symbol_id ← lift (first_symbol resp "symbolId");
                        mret (py_str py_repr symbol_id)
                      else raise no_exact_match);
                mret (JStr id)) w w' res).
    + intros resp w1 res1 w2. cbv [mbind M_bind lift mret M_ret raise].
      destruct (first_symbol resp "symbol") as [sym|]; [|by intros [= _ <-]].
      destruct (json_eq_str sym ticker); [|by intros [= _ <-]].
      destruct (first_symbol resp "symbolId"); by intros [= _ <-].
    + rewrite <- Hrun. unfold get_symbol_id. cbv [mbind M_bind lift mret M_ret raise].
      destruct (api_url api_version "symbols/search" w) as [[u|] w1]; [|done].
      destruct (session_get _ _ w1) as [[r|] w2]; [|done].
      destruct (resp_json r) as [resp|]; [|done].
      destruct (first_symbol resp "symbol") as [sym|]; [|done].
      destruct (json_eq_str sym ticker); [|done].
      by destruct (first_symbol resp "symbolId").
Qed.

(** [get_candles], [get_quote] and [get_symbol_id] only read: whatever they
    return or raise, the client object is the one they were called on. *)
Theorem queries_leave_the_client (py_repr : json → string) (w : world Questrade)
    (symbol_id start_time end_time time_interval ticker api_version : string) :
  self (get_candles symbol_id start_time end_time time_interval api_version w).2
    = self w ∧
  self (get_quote symbol_id api_version w).2 = self w ∧
  self (get_symbol_id py_repr ticker api_version w).2 = self w.
Proof.
  split; [|split].
  - destruct (get_candles _ _ _ _ _ w) as [res w'] eqn:E.
    by apply get_candles_keeps_self in E.
  - destruct (get_quote _ _ w) as [res w'] eqn:E.
    by apply get_quote_keeps_self in E.
  - destruct (get_symbol_id _ _ _ w) as [res w'] eqn:E.
    by apply get_symbol_id_keeps_self in E.
Qed.

(** The two calls of [session.get] a constructor makes before it returns.
    The first asks the login server, with the client token in the URL and the
    headers of a fresh session; the second asks the [api_server] of the token
    just received for [v1/accounts], and the session already carries the
    [Authorization] header made from that token.  There is no third call. *)
Theorem constructor_requests (default_headers : gmap string string)
    (token : string) (n n' : network) (q : Questrade) :
  Questrade_init default_headers token n = (Ok q, n') →
  ∃ tok token_type access server,
    access_token q = Some tok ∧
    py_getitem tok (SKey "token_type") = Ok (JStr token_type) ∧
    py_getitem tok (SKey "access_token") = Ok (JStr access) ∧
    py_getitem tok (SKey "api_server") = Ok (JStr server) ∧
    sent n'
      = (sent n ++
           [ {| url := serv_url +:+ token; req_headers := default_headers |};
             {| url := os_path_join server ["v1/"; "accounts"];
                req_headers :=
                  <["Authorization" := token_type +:+ " " +:+ access]>
                    default_headers |} ])%list.
Proof.
  unfold Questrade_init, get_access_token, get_accounts, store_token, resp_json.
  run_method. destruct n as [responses log]. simpl.
  destruct responses as [|r1 responses]; simpl; [done|].
  destruct (bool_decide (text r1 = "Bad Request")); simpl; [done|].
  destruct (json_body r1) as [tok|]; simpl; [|done].
  destruct (py_getitem tok (SKey "token_type")) as [tt|] eqn:Htt; simpl; [|done].
  destruct (as_str tt) as [token_type|] eqn:Ett; simpl; [|done].
  destruct (py_getitem tok (SKey "access_token")) as [at'|] eqn:Hat; simpl; [|done].
  destruct (as_str at') as [access|] eqn:Eat; simpl; [|done].
  destruct (py_getitem tok (SKey "api_server")) as [srv|] eqn:Hsrv; simpl; [|done].
  destruct (as_str srv) as [server|] eqn:Esrv; simpl; [|done].
  apply as_str_ok in Ett as ->. apply as_str_ok in Eat as ->.
  apply as_str_ok in Esrv as ->.
  destruct responses as [|r2 responses]; simpl; [done|].
  destruct (json_body r2) as [a|]; simpl; [|done].
  intros [= <- <-]. exists tok, token_type, access, server. simpl.
  repeat split; try done.
  rewrite <- app_assoc. simpl. unfold request_of. simpl.
  by rewrite insert_union_singleton_l.
Qed.

Lemma constructor_requests_witness :
  ∃ q n',
    Questrade_init ∅ "token" three_responses = (Ok q, n') ∧
    ∃ tok token_type access server,
      access_token q = Some tok ∧
      py_getitem tok (SKey "token_type") = Ok (JStr token_type) ∧
      py_getitem tok (SKey "access_token") = Ok (JStr access) ∧
      py_getitem tok (SKey "api_server") = Ok (JStr server) ∧
      sent n'
        = (sent three_responses ++
             [ {| url := serv_url +:+ "token"; req_headers := ∅ |};
               {| url := os_path_join server ["v1/"; "accounts"];
                  req_headers :=
                    <["Authorization" := token_type +:+ " " +:+ access]> ∅ |} ])%list.
Proof.
  eexists _, _. split; [reflexivity|].
  apply (constructor_requests ∅ "token" three_responses). reflexivity.
Defined.

(** What a failed token exchange leaves behind.  When the body is not JSON
    the call raises the decoding error and the client is as it was.  When the
    body is JSON but the call raises all the same (the body is not a token
    object), the parsed body has replaced [self.access_token], while
    [self.headers] and the headers of the session are still those of the old
    token.  The same holds for [refresh_access_token]. *)
Theorem failed_token_exchange (q : Questrade) (r : response)
    (rest : list response) (log : list request) :
  text r ≠ "Bad Request" →
  let w := {| self := q; net := {| pending := r :: rest; sent := log |} |} in
  (json_body r = None →
     (get_access_token w).1 = Raise JSONDecodeError ∧
     self (get_access_token w).2 = q) ∧
  (∀ v e, json_body r = Some v → (get_access_token w).1 = Raise e →
     self (get_access_token w).2 = set_access_token v q) ∧
  (∀ v e, json_body r = Some v → (refresh_access_token w).1 = Raise e →
     self (refresh_access_token w).2 = q ∨
     self (refresh_access_token w).2 = set_access_token v q).
Proof.
  intros Htext w.
  assert (∀ w0 : world Questrade,
            (json_body r = None →
               (store_token r w0).1 = Raise JSONDecodeError ∧
               self (store_token r w0).2 = self w0) ∧
            (∀ v e, json_body r = Some v → (store_token r w0).1 = Raise e →
               self (store_token r w0).2 = set_access_token v (self w0)))
    as Hstore.
  { intros w0. unfold store_token, resp_json.
    rewrite bool_decide_eq_false_2 by done. run_method. split.
    - by intros ->.
    - intros v e ->. simpl.
      destruct (py_getitem v (SKey "token_type")) as [tt|]; simpl; [|done].
      destruct (as_str tt); simpl; [|done].
      destruct (py_getitem v (SKey "access_token")) as [at'|]; simpl; [|done].
      destruct (as_str at'); simpl; done. }
  split; [|split].
  - intros Hbody. unfold get_access_token. cbv [mbind M_bind the_self session_get].
    simpl. by apply (Hstore {| self := q; net := _ |}).
  - intros v e Hbody. unfold get_access_token. cbv [mbind M_bind the_self session_get].
    simpl. by apply (proj2 (Hstore {| self := q; net := _ |})).
  - intros v e Hbody. unfold refresh_access_token.
    cbv [mbind M_bind lift read_access_token the_self session_get]. simpl.
    destruct (access_token q) as [tok|]; cbv [mret M_ret raise]; simpl; [|by left].
    destruct (py_getitem tok (SKey "refresh_token")) as [rt|]; simpl; [|by left].
    destruct (as_str rt); simpl; [|by left].
    intros Hraise. right. by apply (proj2 (Hstore {| self := q; net := _ |}) v e).
Qed.

Lemma failed_token_exchange_witness :
  self (get_access_token
          {| self := sample_client;
             net := {| pending := [null_response]; sent := [] |} |}).2
    = set_access_token JNull sample_client.
Proof.
  assert (text null_response ≠ "Bad Request") as Htext by discriminate.
  exact (proj1 (proj2 (failed_token_exchange sample_client null_response [] [] Htext))
           JNull TypeError eq_refl eq_refl).
Defined.

(** A token exchange that succeeds replaces the [Authorization] header of
    the session and nothing else of its headers; it stores the parsed body as
    the token, and leaves the cached accounts alone.  [refresh_access_token]
    asks with the [refresh_token] of the token it holds. *)
Theorem token_exchange_replaces_authorization (q : Questrade) (r : response)
    (rest : list response) (log : list request) (tok : json)
    (token_type access : string) :
  text r ≠ "Bad Request" → json_body r = Some tok →
  py_getitem tok (SKey "token_type") = Ok (JStr token_type) →
  py_getitem tok (SKey "access_token") = Ok (JStr access) →
  let w := {| self := q; net := {| pending := r :: rest; sent := log |} |} in
  let q' :=
    {| client_token := client_token q;
       session := {| session_headers :=
                       <["Authorization" := token_type +:+ " " +:+ access]>
                         (session_headers (session q));
                     adapters := adapters (session q) |};
       headers := Some {[ "Authorization" := token_type +:+ " " +:+ access ]};
       accounts := accounts q;
       access_token := Some tok |} in
  get_access_token w
    = (Ok tok,
       {| self := q';
          net := {| pending := rest;
                    sent := log ++ [request_of (session q)
                                      (serv_url +:+ client_token q)] |} |}) ∧
  ∀ old refresh,
    access_token q = Some old →
    py_getitem old (SKey "refresh_token") = Ok (JStr refresh) →
    refresh_access_token w
      = (Ok tok,
         {| self := q';
            net := {| pending := rest;
                      sent := log ++ [request_of (session q)
                                        (serv_url +:+ refresh)] |} |}).
Proof.
  intros Htext Hbody Htt Hat w q'.
  assert (∀ n0, store_token r {| self := q; net := n0 |}
                = (Ok tok, {| self := q'; net := n0 |})) as Hstore.
  { intros n0. unfold store_token, resp_json.
    rewrite bool_decide_eq_false_2 by done. run_method. simpl.
    rewrite Hbody. simpl. rewrite Htt. simpl. rewrite Hat. simpl.
    unfold q', update_session_headers, set_headers, set_access_token. simpl.
    by rewrite insert_union_singleton_l. }
  split.
  - unfold get_access_token. cbv [mbind M_bind the_self session_get]. simpl.
    apply Hstore.
  - intros old refresh Hold Hrefresh. unfold refresh_access_token.
    cbv [mbind M_bind lift read_access_token the_self session_get]. simpl.
    rewrite Hold. cbv [mret M_ret]. rewrite Hrefresh. simpl. apply Hstore.
Qed.

Lemma token_exchange_replaces_authorization_witness :
  (refresh_access_token
     {| self := sample_client;
        net := {| pending := [json_response "" sample_token]; sent := [] |} |}).1
    = Ok sample_token.
Proof.
  assert (text (json_response "" sample_token) ≠ "Bad Request") as Htext
    by discriminate.
  exact (f_equal fst
           (proj2 (token_exchange_replaces_authorization sample_client
                     (json_response "" sample_token) [] [] sample_token
                     "Bearer" "C3lTUKuNQrAAmSD" Htext eq_refl eq_refl eq_refl)
              sample_token _ eq_refl eq_refl)).
Defined.

(** [get_accounts] either returns the parsed body of the response and caches
    it, changing nothing else of the client, or raises and leaves the client,
    cached accounts included, as it was.  It never answers from the cache. *)
Theorem get_accounts_caches_or_leaves (api_version : string)
    (w : world Questrade) :
  match get_accounts api_version w with
  | (Ok a, w') =>
      self w' = set_accounts a (self w) ∧
      ∃ r, pending (net w) = r :: pending (net w') ∧ json_body r = Some a
  | (Raise _, w') => self w' = self w
  end.
Proof.
  destruct (get_accounts api_version w) as [res w'] eqn:Hrun.
  apply get_accounts_inv in Hrun. by destruct res.
Qed.

(** ** URLs *)







(** A search that finds nothing does not raise the error of "no exact
    match": with an empty list of symbols [get_symbol_id] raises [IndexError],
    and with a body that has no list of symbols the [KeyError] of ['symbols'].
    Whatever reading the first symbol raises is what the caller gets. *)
Theorem get_symbol_id_without_results (py_repr : json → string)
    (q : Questrade) (tok : json) (server : string)
    (r : response) (rest : list response) (log : list request)
    (resp : json) (ticker api_version : string) :
  access_token q = Some tok →
  py_getitem tok (SKey "api_server") = Ok (JStr server) →
  json_body r = Some resp →
  let w := {| self := q; net := {| pending := r :: rest; sent := log |} |} in
  let outcome := (get_symbol_id py_repr ticker api_version w).1 in
  (∀ e, first_symbol resp "symbol" = Raise e → outcome = Raise e) ∧
  (∀ d, resp = JDict d → dict_get d "symbols" = Some (JList []) →
     outcome = Raise IndexError) ∧
  (∀ d, resp = JDict d → dict_get d "symbols" = None →
     outcome = Raise (KeyError (SKey "symbols"))).
Proof.
  intros Htok Hserver Hbody w outcome.
  assert (∀ e, first_symbol resp "symbol" = Raise e → outcome = Raise e) as Hfirst.
  { intros e He. unfold outcome, get_symbol_id, resp_json. run_method. simpl.
    rewrite Htok, Hserver. simpl. by rewrite Hbody, He. }
  split; [done|]. split.
  - intros d -> Hd. apply Hfirst. unfold first_symbol. simpl. by rewrite Hd.
  - intros d -> Hd. apply Hfirst. unfold first_symbol. simpl. by rewrite Hd.
Qed.

Lemma get_symbol_id_without_results_witness :
  (get_symbol_id (λ _, "") "ZZZZ" "v1/"
     {| self := sample_client;
        net := {| pending := [json_response "" (JDict [("symbols", JList [])])];
                  sent := [] |} |}).1
    = Raise IndexError.
Proof.
  exact (proj1 (proj2 (get_symbol_id_without_results (λ _, "") sample_client
                         sample_token _
                         (json_response "" (JDict [("symbols", JList [])]))
                         [] [] _ "ZZZZ" "v1/" eq_refl eq_refl eq_refl))
           _ eq_refl eq_refl).
Defined.

(** ** Tables of candles *)

Lemma comprehension_fmap_ok {A B} (f : A → result B) (g : A → B) (l : list A) :
  (∀ x, x ∈ l → f x = Ok (g x)) → comprehension f l = Ok (g <$> l).
Proof.
  induction l as [|x l IH]; intros Hf; simpl; [done|].
  rewrite Hf by by left. simpl. rewrite IH by (intros y ?; apply Hf; by right).
  done.
Qed.

Lemma comprehension_fmap {A B C} (f : B → result C) (g : A → B) (l : list A) :
  comprehension f (g <$> l) = comprehension (λ x, f (g x)) l.
Proof.
  induction l as [|x l IH]; [done|].
  rewrite fmap_cons. cbn [comprehension]. by rewrite IH.
Qed.

Lemma py_getitem_list (cs : list json) (j : nat) (c : json) :
  cs !! j = Some c → py_getitem (JList cs) (SIdx (Z.of_nat j)) = Ok c.
Proof.
  intros Hj. simpl. unfold norm_index.
  apply lookup_lt_Some in Hj as Hlt.
  rewrite decide_True by lia. simpl. by rewrite Nat2Z.id, Hj.
Qed.

Section candle_facts.
Context {Timestamp Date Time : Type}.
Context (to_datetime : cell Date Time → result Timestamp).
Context (date_of : Timestamp → Date) (time_of : Timestamp → Time).

(** On a list of candles that all have the eight keys, and whose [end]
    values [pd.to_datetime] accepts, [make_candles_df] returns a table with
    one row per candle, in the order of the list and labelled [0 .. n-1], and
    ten columns: the eight keys in the order of the literal, each holding the
    values the candles have under that key, then [date] and [time], both
    taken from [end].  Other keys of the candles play no part. *)
Theorem make_candles_df_rows (cs : list json) (value : nat → string → json)
    (stamp : nat → Timestamp) :
  (∀ j c k, cs !! j = Some c → k ∈ candle_keys →
     py_getitem c (SKey k) = Ok (value j k)) →
  (∀ j, (j < length cs)%nat → to_datetime (CJson (value j "end")) = Ok (stamp j)) →
  make_candles_df to_datetime date_of time_of (JList cs)
    = Ok {| cf_index := seqZ 0 (Z.of_nat (length cs));
            cf_columns :=
              ((λ k, (k, (λ j, CJson (value j k)) <$> seq 0 (length cs)))
                 <$> candle_keys) ++
              [("date", (λ j, CDate (date_of (stamp j))) <$> seq 0 (length cs));
               ("time", (λ j, CTime (time_of (stamp j))) <$> seq 0 (length cs))] |}.
Proof.
  intros Hvalue Hstamp. unfold make_candles_df.
  rewrite (comprehension_fmap_ok _
             (λ k, (k, (λ j, CJson (value j k)) <$> seq 0 (length cs)))).
  2:{ intros k Hk. unfold candle_column. cbn [py_len rbind].
      rewrite (comprehension_fmap_ok _ (λ j, value j k)).
      - cbn [rbind]. by rewrite <- list_fmap_compose.
      - intros j Hj. apply elem_of_seq in Hj as [_ Hj].
        destruct (lookup_lt_is_Some_2 cs j) as [c Hc]; [lia|].
        unfold candle_value. rewrite (py_getitem_list _ _ _ Hc). cbn [rbind].
        by apply (Hvalue j). }
  cbn [rbind].
  set (n := length cs).
  assert (∀ (g : nat → cell Date Time),
            (∀ j, (j < n)%nat → to_datetime (CJson (value j "end")) = Ok (stamp j)) →
            ∀ h : Timestamp → cell Date Time,
              comprehension (λ tmp, let? ts := to_datetime tmp in Ok (h ts))
                ((λ j, CJson (value j "end")) <$> seq 0 n)
              = Ok ((λ j, h (stamp j)) <$> seq 0 n)) as Hconv.
  { intros _ Hs h. rewrite comprehension_fmap. apply comprehension_fmap_ok.
    intros j Hj. apply elem_of_seq in Hj as [_ Hj]. by rewrite Hs by lia. }
  change (dict_item _ "end") with
    (Ok (A := list (cell Date Time)) ((λ j, CJson (value j "end")) <$> seq 0 n)) at 1.
  cbn [rbind].
  rewrite (Hconv (λ _, CJson JNull) Hstamp (λ ts, CDate (date_of ts))). cbn [rbind].
  change (dict_item _ "end") with
    (Ok (A := list (cell Date Time)) ((λ j, CJson (value j "end")) <$> seq 0 n)).
  cbn [rbind].
  rewrite (Hconv (λ _, CJson JNull) Hstamp (λ ts, CTime (time_of ts))). cbn [rbind].
  unfold frame_of_dict, candle_keys. simpl.
  rewrite !length_fmap, !Nat.eqb_refl. simpl. do 2 f_equal.
  by rewrite length_seq.
Qed.
End candle_facts.

Lemma make_candles_df_rows_witness :
  make_candles_df sample_to_datetime (substring 0 10) (substring 11 8)
    (JList sample_candles)
  = Ok {| cf_index := [0; 1];
          cf_columns :=
            [("start", [CJson (JStr "2020-03-24T09:30:00");
                        CJson (JStr "2020-03-24T09:31:00")]);
             ("end", [CJson (JStr "2020-03-24T09:31:00");
                      CJson (JStr "2020-03-24T09:32:00")]);
             ("open", [CJson (JInt 11); CJson (JInt 12)]);
             ("close", [CJson (JInt 12); CJson (JInt 11)]);
             ("low", [CJson (JInt 10); CJson (JInt 11)]);
             ("high", [CJson (JInt 12); CJson (JInt 13)]);
             ("volume", [CJson (JInt 500); CJson (JInt 300)]);
             ("VWAP", [CJson (JInt 11); CJson (JInt 12)]);
             ("date", [CDate "2020-03-24"; CDate "2020-03-24"]);
             ("time", [CTime "09:31:00"; CTime "09:32:00"])] |}.
Proof.
  apply (make_candles_df_rows sample_to_datetime (substring 0 10) (substring 11 8)
           sample_candles sample_value sample_stamp).
  - intros [|[|j]] c k Hc Hk; simplify_eq/=;
      repeat (apply elem_of_cons in Hk as [->|Hk]; [reflexivity|]);
      by apply elem_of_nil in Hk.
  - intros [|[|j]] Hj; [reflexivity..|]. simpl in Hj. lia.
Defined.

Lemma comprehension_all_ok {A B} (f : A → result B) (l : list A) :
  (∀ x, x ∈ l → ∃ b, f x = Ok b) → ∃ bs, comprehension f l = Ok bs.
Proof.
  induction l as [|x l IH]; intros Hf; simpl; [eauto|].
  destruct (Hf x) as [b ->]; [by left|]. simpl.
  destruct IH as [bs ->]; [intros y ?; apply Hf; by right|]. simpl. eauto.
Qed.

Lemma comprehension_one_error {A B} (f : A → result B) (l : list A) (e : exn) :
  (∀ x, x ∈ l → (∃ b, f x = Ok b) ∨ f x = Raise e) →
  (∃ x, x ∈ l ∧ f x = Raise e) →
  comprehension f l = Raise e.
Proof.
  induction l as [|x l IH]; intros Hf (y & Hy & Hfy); [by apply elem_of_nil in Hy|].
  simpl. destruct (Hf x) as [[b Hb]| ->]; [by left| |done].
  rewrite Hb. simpl. rewrite IH; [done|intros z ?; apply Hf; by right|].
  apply elem_of_cons in Hy as [->|Hy]; [congruence | eauto].
Qed.

Section candle_failures.
Context {Timestamp Date Time : Type}.
Context (to_datetime : cell Date Time → result Timestamp).
Context (date_of : Timestamp → Date) (time_of : Timestamp → Time).

(** A candle that lacks one of the eight keys makes [make_candles_df] raise
    the [KeyError] of a key.  The columns are filled key by key, so the key
    reported is the first one, in the order of the literal, that some candle
    lacks, whichever candle that is. *)
Theorem make_candles_df_missing_key (cs : list json)
    (before : list string) (k : string) (after : list string) :
  candle_keys = (before ++ k :: after)%list →
  (∀ c, c ∈ cs → ∃ d, c = JDict d) →
  (∀ c k', c ∈ cs → k' ∈ before → ∃ v, py_getitem c (SKey k') = Ok v) →
  (∃ d, JDict d ∈ cs ∧ dict_get d k = None) →
  make_candles_df to_datetime date_of time_of (JList cs)
    = Raise (KeyError (SKey k)).
Proof.
  intros Hkeys Hdicts Hbefore (d & Hd & Hlack). unfold make_candles_df.
  assert (∀ k0 j, (j < length cs)%nat →
            ∃ c, cs !! j = Some c ∧ candle_value (JList cs) k0 j = py_getitem c (SKey k0))
    as Hvalue.
  { intros k0 j Hj. destruct (lookup_lt_is_Some_2 cs j Hj) as [c Hc].
    exists c. split; [done|]. unfold candle_value.
    by rewrite (py_getitem_list _ _ _ Hc). }
  rewrite Hkeys.
  rewrite (comprehension_first_failure _ _ _ _ (KeyError (SKey k))); [done| |].
  - apply Forall_forall. intros k' Hk'. unfold candle_column. cbn [py_len rbind].
    destruct (comprehension_all_ok (candle_value (JList cs) k') (seq 0 (length cs)))
      as [col ->]; [|simpl; eauto].
    intros j Hj. apply elem_of_seq in Hj as [_ Hj].
    destruct (Hvalue k' j) as (c & Hc & ->); [lia|].
    apply (Hbefore c k'); [|done]. apply list_elem_of_lookup. eauto.
  - unfold candle_column. cbn [py_len rbind].
    rewrite (comprehension_one_error _ _ (KeyError (SKey k))); [done| |].
    + intros j Hj. apply elem_of_seq in Hj as [_ Hj].
      destruct (Hvalue k j) as (c & Hc & ->); [lia|].
      destruct (Hdicts c) as [d' ->]; [apply list_elem_of_lookup; eauto|].
      simpl. destruct (dict_get d' k); eauto.
    + apply list_elem_of_lookup in Hd as [j Hj].
      exists j. split.
      * apply elem_of_seq. apply lookup_lt_Some in Hj. lia.
      * destruct (Hvalue k j) as (c & Hc & ->); [by eapply lookup_lt_Some|].
        rewrite Hj in Hc. simplify_eq. simpl. by rewrite Hlack.
Qed.

(** [make_candles_df] wants the list of candles itself.  Given a JSON object
    that is not empty, such as the whole body [get_candles] returns, it
    raises [KeyError 0]: the object has a length, and no key [0].  Given an
    empty list it returns the ten columns with no row. *)
Theorem make_candles_df_wants_a_list :
  (∀ d, d ≠ [] →
     make_candles_df to_datetime date_of time_of (JDict d)
       = Raise (KeyError (SIdx 0))) ∧
  make_candles_df to_datetime date_of time_of (JList [])
    = Ok {| cf_index := [];
            cf_columns := ((λ k, (k, [])) <$> candle_keys) ++
                          [("date", []); ("time", [])] |}.
Proof.
  split; [|reflexivity].
  intros [|kv d] Hd; [done|]. reflexivity.
Qed.
End candle_failures.

Lemma make_candles_df_missing_key_witness :
  make_candles_df sample_to_datetime (substring 0 10) (substring 11 8)
    (JList candles_without_open)
  = Raise (KeyError (SKey "open")).
Proof.
  apply (make_candles_df_missing_key sample_to_datetime (substring 0 10)
           (substring 11 8) candles_without_open ["start"; "end"] "open"
           ["close"; "low"; "high"; "volume"; "VWAP"]).
  - reflexivity.
  - intros c Hc. unfold candles_without_open in Hc.
    repeat (apply elem_of_cons in Hc as [->|Hc]; [eauto|]).
    by apply elem_of_nil in Hc.
  - intros c k' Hc Hk. unfold candles_without_open in Hc.
    repeat (apply elem_of_cons in Hc as [->|Hc];
            [repeat (apply elem_of_cons in Hk as [->|Hk]; [simpl; eauto|]);
             by apply elem_of_nil in Hk|]).
    by apply elem_of_nil in Hc.
  - eexists. split; [right; left|]. reflexivity.
Defined.

(** ** Dates *)

Lemma digit_value_digit (n : Z) : digit_value (digit n) = Some (n mod 10).
Proof.
  unfold digit_value, digit.
  pose proof (Z.mod_pos_bound n 10 eq_refl) as Hn.
  rewrite nat_ascii_embedding by lia.
  rewrite decide_True by lia. f_equal. lia.
Qed.

Lemma is_leap_spec (y : Z) :
  is_leap y = true ↔ y mod 4 = 0 ∧ (y mod 100 ≠ 0 ∨ y mod 400 = 0).
Proof.
  unfold is_leap.
  rewrite andb_true_iff, orb_true_iff, negb_true_iff, !Z.eqb_eq, Z.eqb_neq. done.
Qed.

Lemma strftime_parse (d : pydate) :
  valid_date d → 1000 ≤ year d → parse_Ymd (strftime_Ymd d) = Some d.
Proof.
  intros (Hy & Hm & Hd) Hy'. unfold strftime_Ymd, two_digits.
  cbv [String.append]. unfold parse_Ymd. rewrite !digit_value_digit. simpl.
  assert (day d ≤ 31) as Hd31.
  { unfold days_in_month in Hd. repeat case_match; lia. }
  destruct d as [y m dd]. simpl in *. f_equal. f_equal.
  - pose proof (Z.div_mod y 1000). pose proof (Z.div_mod y 100).
    pose proof (Z.div_mod y 10).
    rewrite (Z.mod_small (y / 1000)) by (split; [apply Z.div_pos; lia |
      apply Z.div_lt_upper_bound; lia]).
    Z.to_euclidean_division_equations. lia.
  - Z.to_euclidean_division_equations. lia.
  - Z.to_euclidean_division_equations. lia.
Qed.

Lemma days_before_next_month (y m : Z) :
  1 ≤ m ≤ 11 →
  days_before_month y (m + 1) = days_before_month y m + days_in_month y m.
Proof.
  intros Hm. assert (m = 1 ∨ m = 2 ∨ m = 3 ∨ m = 4 ∨ m = 5 ∨ m = 6 ∨ m = 7 ∨
                     m = 8 ∨ m = 9 ∨ m = 10 ∨ m = 11) as Hcases by lia.
  unfold days_before_month, days_in_month.
  destruct (is_leap y);
    repeat (destruct Hcases as [->|Hcases]; [reflexivity|]); by subst.
Qed.

Lemma plus_one_day_spec (d next : pydate) :
  valid_date d → plus_one_day d = inr next →
  valid_date next ∧ toordinal next = toordinal d + 1.
Proof.
  intros (Hy & Hm & Hd). unfold plus_one_day.
  destruct (Z.ltb_spec (day d) (days_in_month (year d) (month d))).
  { intros [= <-]. unfold valid_date, toordinal. simpl. lia. }
  destruct (Z.ltb_spec (month d) 12).
  { intros [= <-]. unfold valid_date, toordinal. simpl.
    rewrite days_before_next_month by lia. split; [|lia].
    split; [lia|]. split; [lia|]. unfold days_in_month. repeat case_match; lia. }
  destruct (Z.ltb_spec (year d) 9999); [|done].
  intros [= <-]. unfold valid_date, toordinal. simpl.
  assert (month d = 12) as Em by lia. rewrite Em in *.
  assert (day d = 31) as Ed by (unfold days_in_month in *; simpl in *; lia).
  split; [unfold days_in_month; simpl; lia|].
  unfold days_before_month, days_in_month. simpl.
  replace (year d + 1 - 1) with (year d) by lia.
  destruct (is_leap (year d)) eqn:Hleap.
  - apply is_leap_spec in Hleap. Z.to_euclidean_division_equations. lia.
  - assert (¬ (year d mod 4 = 0 ∧ (year d mod 100 ≠ 0 ∨ year d mod 400 = 0)))
      as Hno by (rewrite <- is_leap_spec; congruence).
    Z.to_euclidean_division_equations. lia.
Qed.

Lemma leap_days_step (y : Z) :
  y / 4 - y / 100 + y / 400
  = (y - 1) / 4 - (y - 1) / 100 + (y - 1) / 400 + (if is_leap y then 1 else 0).
Proof.
  destruct (is_leap y) eqn:Hleap.
  - apply is_leap_spec in Hleap. Z.to_euclidean_division_equations. lia.
  - assert (¬ (y mod 4 = 0 ∧ (y mod 100 ≠ 0 ∨ y mod 400 = 0)))
      as Hno by (rewrite <- is_leap_spec; congruence).
    Z.to_euclidean_division_equations. lia.
Qed.

Lemma consecutive_years_not_both_leap (y : Z) :
  is_leap y = true → is_leap (y - 1) = false.
Proof.
  intros Hy. destruct (is_leap (y - 1)) eqn:Hy'; [|done].
  apply is_leap_spec in Hy, Hy'. Z.to_euclidean_division_equations. lia.
Qed.

Lemma days_before_month_year (y y' m : Z) :
  days_before_month y m - days_before_month y' m
  = if 2 <? m then days_in_month y 2 - days_in_month y' 2 else 0.
Proof. unfold days_before_month. destruct (2 <? m); lia. Qed.

Lemma minus_one_year_spec (d : pydate) :
  valid_date d → 2 ≤ year d →
  ∃ last, minus_one_year d = inr last ∧ valid_date last ∧
    year last = year d - 1 ∧ month last = month d ∧
    (day last = day d ∨ (month d = 2 ∧ day d = 29 ∧ day last = 28)) ∧
    365 ≤ toordinal d - toordinal last ≤ 366.
Proof.
  intros (Hy & Hm & Hd) Hy2. unfold minus_one_year.
  rewrite (proj2 (Z.ltb_ge _ _)) by lia. eexists. split; [reflexivity|].
  unfold valid_date, toordinal. simpl.
  pose proof (leap_days_step (year d - 1)) as Hstep.
  pose proof (days_before_month_year (year d) (year d - 1) (month d)) as Hdbm.
  pose proof (consecutive_years_not_both_leap (year d)) as Hleap.
  replace (year d - 1 - 1) with (year d - 2) in * by lia.
  unfold days_in_month in *. simpl in Hdbm.
  destruct (Z.eqb_spec (month d) 2) as [E2|N2].
  - rewrite E2 in *. simpl in Hdbm.
    destruct (is_leap (year d)), (is_leap (year d - 1));
      try (specialize (Hleap eq_refl); discriminate); lia.
  - destruct ((month d =? 4) || (month d =? 6) || (month d =? 9) || (month d =? 11));
      destruct (Z.ltb_spec 2 (month d));
      destruct (is_leap (year d)), (is_leap (year d - 1));
      try (specialize (Hleap eq_refl); discriminate); lia.
Qed.

(** [get_trading_date_range] reads the clock three times, and each of the
    three strings comes from its own reading.  For readings that are dates of
    the years 1001 to 9999, the last one not 9999-12-31, it returns three
    strings of the form [yyyy-mm-dd].  The first is the date of the first
    reading a year earlier: the same month and day of the year before, with
    February 29 turned into February 28, which is 365 or 366 days earlier.
    The second is the second reading.  The third is the day after the third
    reading, also across the end of a month or of a year. *)
Theorem get_trading_date_range_dates (t1 t2 t3 : pydate) :
  valid_date t1 → valid_date t2 → valid_date t3 →
  1001 ≤ year t1 → 1000 ≤ year t2 → 1000 ≤ year t3 →
  ¬ (year t3 = 9999 ∧ month t3 = 12 ∧ day t3 = 31) →
  ∃ s1 s2 s3 last next,
    get_trading_date_range t1 t2 t3 = inr (s1, s2, s3) ∧
    parse_Ymd s1 = Some last ∧ parse_Ymd s2 = Some t2 ∧ parse_Ymd s3 = Some next ∧
    valid_date last ∧ year last = year t1 - 1 ∧ month last = month t1 ∧
    (day last = day t1 ∨ (month t1 = 2 ∧ day t1 = 29 ∧ day last = 28)) ∧
    365 ≤ toordinal t1 - toordinal last ≤ 366 ∧
    valid_date next ∧ toordinal next = toordinal t3 + 1.
Proof.
  intros V1 V2 V3 Y1 Y2 Y3 Hmax.
  destruct (minus_one_year_spec t1 V1) as (last & Hlast & Vl & Yl & Ml & Dl & Ol);
    [lia|].
  assert (∃ next, plus_one_day t3 = inr next) as [next Hnext].
  { unfold plus_one_day. destruct V3 as (? & ? & ?).
    destruct (Z.ltb_spec (day t3) (days_in_month (year t3) (month t3))); [by eexists|].
    destruct (Z.ltb_spec (month t3) 12); [by eexists|].
    destruct (Z.ltb_spec (year t3) 9999); [by eexists|].
    exfalso. apply Hmax. assert (month t3 = 12) as E by lia.
    rewrite E in *. unfold days_in_month in *. simpl in *. lia. }
  destruct (plus_one_day_spec t3 next V3 Hnext) as [Vn On].
  exists (strftime_Ymd last), (strftime_Ymd t2), (strftime_Ymd next), last, next.
  unfold get_trading_date_range. rewrite Hlast, Hnext.
  split; [done|].
  assert (1000 ≤ year next) as Yn.
  { revert Hnext. unfold plus_one_day. repeat case_match; intros [= <-]; simpl; lia. }
  rewrite !strftime_parse by (done || lia). done.
Qed.

Lemma get_trading_date_range_dates_witness :
  ∃ s1 s2 s3 last next,
    get_trading_date_range {| year := 2020; month := 2; day := 29 |}
      {| year := 2020; month := 2; day := 29 |}
      {| year := 2020; month := 2; day := 29 |} = inr (s1, s2, s3) ∧
    parse_Ymd s1 = Some last ∧
    parse_Ymd s2 = Some {| year := 2020; month := 2; day := 29 |} ∧
    parse_Ymd s3 = Some next ∧
    valid_date last ∧ year last = 2020 - 1 ∧ month last = 2 ∧
    (day last = 29 ∨ (2 = 2 ∧ 29 = 29 ∧ day last = 28)) ∧
    365 ≤ toordinal {| year := 2020; month := 2; day := 29 |} - toordinal last ≤ 366 ∧
    valid_date next ∧
    toordinal next = toordinal {| year := 2020; month := 2; day := 29 |} + 1.
Proof.
  apply (get_trading_date_range_dates
           {| year := 2020; month := 2; day := 29 |}
           {| year := 2020; month := 2; day := 29 |}
           {| year := 2020; month := 2; day := 29 |});
    unfold valid_date; simpl; try lia.
  all: vm_compute; repeat split; congruence.
Defined.

(** The two ends of the calendar.  On a day of the year 1 the function
    raises, since there is no year before it; on 9999-12-31 it raises, since
    there is no day after it.  On every other date it returns. *)
Theorem get_trading_date_range_raises (t : pydate) :
  valid_date t →
  (year t = 1 ↔ get_trading_date_range t t t = inl YearOutOfRange) ∧
  (1 < year t ∧ year t = 9999 ∧ month t = 12 ∧ day t = 31
     ↔ get_trading_date_range t t t = inl DateOverflow).
Proof.
  intros (Hy & Hm & Hd). unfold get_trading_date_range, minus_one_year, plus_one_day.
  destruct (Z.ltb_spec (year t - 1) 1).
  { split; split; (lia || done). }
  destruct (Z.ltb_spec (day t) (days_in_month (year t) (month t))).
  { split; split; try done; try lia.
    intros (_ & _ & Em & Ed). rewrite Em in *. unfold days_in_month in *.
    simpl in *. lia. }
  destruct (Z.ltb_spec (month t) 12); [split; split; (lia || done)|].
  destruct (Z.ltb_spec (year t) 9999); [split; split; (lia || done)|].
  split; split; try done; try lia. intros _.
  assert (month t = 12) as Em by lia. rewrite Em in *.
  unfold days_in_month in *. simpl in *. lia.
Qed.

Lemma get_trading_date_range_raises_witness :
  get_trading_date_range {| year := 9999; month := 12; day := 31 |}
    {| year := 9999; month := 12; day := 31 |}
    {| year := 9999; month := 12; day := 31 |} = inl DateOverflow.
Proof.
  apply (get_trading_date_range_raises {| year := 9999; month := 12; day := 31 |}).
  - unfold valid_date, days_in_month. simpl. lia.
  - simpl. lia.
Defined.
